(** * sepex-viewer: the API client and the jobs-overview aggregation

    A shallow embedding of [app/sepex.py], [app/helpers.py] and the metadata
    branch of [app/home.py], with the properties the specification states
    about them.

    Conventions.
    - A pandas column is a list of cells; a string cell is [option string],
      [None] being a missing value (NaN / None).
    - A pandas timestamp is its integer number of nanoseconds since the epoch
      ([Z]); a [Timedelta] is a number of nanoseconds as well.
    - A Python [dict] used as a map is a [gmap]; a parsed JSON value keeps its
      objects as association lists in document order, because
      [fetch_table] depends on the order of [dict.values()].
    - HTTP is an oracle from requests to outcomes; every function that calls
      [requests.get] or [print] returns the trace of what it did. *)

From Stdlib Require Import ZArith Lia Ascii.
From stdpp Require Import base list gmap strings sorting pretty.

Local Open Scope string_scope.
Local Open Scope list_scope.

Set Warnings "-register-all".

(** ** Value counts and the top-N breakdown ([helpers.py], lines 138-151 and 169-182) *)

Module Breakdown.

(** One row of a counts table: the value and how often it occurs. *)
Abbreviation row := (string * nat)%type.

(** [Series.dropna]: the values that are present. *)
Definition dropna {A} (col : list (option A)) : list A :=
  omap id col.

(** pandas counts with a hash table that keeps the order in which values are
    first seen; [add_count v w t] adds [w] occurrences of [v]. *)
Fixpoint add_count (v : string) (w : nat) (t : list row) : list row :=
  match t with
  | [] => [(v, w)]
  | (k, c) :: t' =>
      if decide (k = v) then (k, c + w) :: t' else (k, c) :: add_count v w t'
  end.

Definition tally (values : list string) : list row :=
  foldl (fun t v => add_count v 1 t) [] values.

(** Descending sort by count; rows with equal counts keep their order. *)
Fixpoint insert_desc (r : row) (l : list row) : list row :=
  match l with
  | [] => [r]
  | r' :: l' =>
      if decide (r'.2 <= r.2) then r :: l else r' :: insert_desc r l'
  end.

Definition sort_desc (l : list row) : list row := foldr insert_desc [] l.

(** [Series.value_counts().reset_index()]: missing values are dropped, the
    others are counted and the table is sorted by descending count.  pandas
    promises no order among rows of equal count; the order chosen here
    (first seen first) is one of those it may give, and no property below
    depends on it. *)
Definition value_counts (col : list (option string)) : list row :=
  sort_desc (tally (dropna col)).

Definition top_n : nat := 10.

(** The overflow step, as written twice in [render_jobs_overview]:
<<
    if counts.shape[0] > top_n:
        others = counts.iloc[top_n:]["count"].sum()
        counts = counts.iloc[:top_n]
        counts = pd.concat([counts, DataFrame([{..: "other", "count": others}])])
>> *)
Definition collapse_overflow (n : nat) (counts : list row) : list row :=
  if decide (n < length counts)
  then take n counts ++ [("other", sum_list (drop n counts).*2)]
  else counts.

Definition top_n_with_overflow (col : list (option string)) : list row :=
  collapse_overflow top_n (value_counts col).

(** The same counting applied to rows that already carry a count: a row
    [(v, c)] stands for [c] occurrences of [v].  [tally_rows] generalises
    [tally] (lemma [tally_rows_units]). *)
Definition tally_rows (rows : list row) : list row :=
  foldl (fun t r => add_count r.1 r.2 t) [] rows.

Definition value_counts_rows (rows : list row) : list row :=
  sort_desc (tally_rows rows).

Definition top_n_with_overflow_rows (rows : list row) : list row :=
  collapse_overflow top_n (value_counts_rows rows).

(** Number of occurrences of [v], and number of distinct values. *)
Definition occurrences (v : string) (values : list string) : nat :=
  length (filter (fun x => x = v) values).

Definition distinct (values : list string) : nat :=
  length (remove_dups values).

(** Rows sorted by non-increasing count. *)
Definition descending (l : list row) : Prop :=
  Sorted (fun a b : row => b.2 <= a.2) l.

(** *** Vocabulary of the statements and sample columns *)

(** Total count recorded for [k] in a table. *)
Definition recorded (k : string) (t : list row) : nat :=
  sum_list (filter (fun r : row => r.1 = k) t).*2.

(** The counting loop started from a table [t0]. *)
Definition tally_rows_loop (t0 rows : list row) : list row :=
  foldl (fun t (r : row) => add_count r.1 r.2 t) t0 rows.

Definition eleven_values : list (option string) :=
  [Some "a"; Some "b"; None; Some "c"; Some "d"; Some "e"; Some "f"; Some "b";
   Some "g"; Some "h"; Some "i"; Some "j"; Some "k"; Some "b"; Some "k"].

Definition three_values : list (option string) :=
  [Some "alice"; Some "other"; None; Some "bob"; Some "other"; Some "bob"; Some "bob"].

End Breakdown.

(** ** Python values, HTTP and effects *)

Module Py.

(** A value produced by [response.json()].  A JSON object is the list of its
    items in the order of [dict.items()] (keys are distinct after parsing).
    Floating-point literals play no role here and are kept as their text. *)
Inductive pyval : Type :=
  | PNone
  | PBool (b : bool)
  | PInt (n : Z)
  | PFloat (repr : string)
  | PStr (s : string)
  | PList (items : list pyval)
  | PDict (items : list (string * pyval)).

(** Keyword arguments of a call [cls( ** item )]. *)
Definition kwargs : Type := list (string * pyval).

(** [d.get(k)] on an item list. *)
Fixpoint lookup_key (k : string) (d : kwargs) : option pyval :=
  match d with
  | [] => None
  | (k', v) :: d' => if decide (k' = k) then Some v else lookup_key k d'
  end.

Definition is_list (v : pyval) : bool :=
  match v with PList _ => true | _ => false end.

(** [requests.get(url, params=...)]: the URL and the query parameters, [None]
    when the call passes none. *)
Record request : Type := Request {
  url : string;
  params : option kwargs;
}.

(** A response: its status code and its body, [None] when the body is not
    JSON (then [response.json()] raises). *)
Record response : Type := Response {
  status_code : Z;
  body : option pyval;
}.

(** What [requests.get] does: raise (connection refused, timeout, ...) with a
    message, or return a response. *)
Inductive outcome : Type :=
  | Raised (msg : string)
  | Responded (r : response).

Inductive exn : Type :=
  | RequestException (msg : string)
  | JSONDecodeError
  | TypeError
  | AttributeError
  | KeyError (key : string)
  | ValidationError.

(** A time-series bucket width. *)
Inductive bucket : Type := B1d | B12h | B1h | B15min.

(** Chart data handed to altair. *)
Inductive chart : Type :=
  | TimeSeries (freq : bucket) (counts : gmap (Z * string) nat)
  | ProcessPie (rows : list Breakdown.row)
  | SubmitterBar (rows : list Breakdown.row).

(** What the code does to the outside world, in order. *)
Inductive event : Type :=
  | Get (r : request)
  | Print (line : string)
  | StInfo (text : string)
  | StError (text : string)
  | StJson (v : pyval)
  | StMetric (label value : string)
  | StMetricTime (label : string) (t : Z)
  | StChart (c : chart).

Inductive result (A : Type) : Type :=
  | Ok (a : A)
  | Raise (e : exn).
Global Arguments Ok {A} a.
Global Arguments Raise {A} e.

(** A computation: the trace of its events and how it ends. *)
Definition M (A : Type) : Type := list event * result A.

Global Instance M_ret : MRet M := fun A a => ([], Ok a).
Global Instance M_bind : MBind M := fun A B f m =>
  match m with
  | (t, Ok a) => let '(t', r) := f a in (t ++ t', r)
  | (t, Raise e) => (t, Raise e)
  end.

Definition raise {A} (e : exn) : M A := ([], Raise e).
Definition emit (e : event) : M unit := ([e], Ok tt).

Definition trace {A} (m : M A) : list event := m.1.
Definition outcome_of {A} (m : M A) : result A := m.2.

(** The GET requests of a trace. *)
Definition requests (t : list event) : list request :=
  omap (fun e => match e with Get r => Some r | _ => None end) t.

Section Effects.
(** The network: what each request is answered with. *)
Variable http : request -> outcome.

(** [try: resp = requests.get(...) except Exception as e: ...] *)
Definition try_get (r : request) : M outcome := ([Get r], Ok (http r)).

(** [requests.get(...)] outside any [try]. *)
Definition get (r : request) : M response :=
  o ← try_get r;
  match o with
  | Raised msg => raise (RequestException msg)
  | Responded resp => mret resp
  end.
End Effects.

(** [response.json()] *)
Definition json (r : response) : M pyval :=
  match body r with
  | Some v => mret v
  | None => raise JSONDecodeError
  end.

(** [for item in data]: lists yield their items, dicts their keys, strings
    their characters; anything else is not iterable. *)
Definition iterate (data : pyval) : M (list pyval) :=
  match data with
  | PList l => mret l
  | PDict kvs => mret (PStr <$> kvs.*1)
  | PStr s => mret ((fun c => PStr (String c "")) <$> String.list_ascii_of_string s)
  | _ => raise TypeError
  end.

(** [cls( ** item )]: [item] must be a mapping, and the model must validate. *)
Definition construct {R} (cls : kwargs -> option R) (item : pyval) : M R :=
  match item with
  | PDict kw =>
      match cls kw with
      | Some r => mret r
      | None => raise ValidationError
      end
  | _ => raise TypeError
  end.

End Py.

(** ** The API client ([sepex.py]) *)

Module Sepex.
Import Py.

(** [str.rstrip("/")] *)
Fixpoint rstrip_slash (s : string) : string :=
  match s with
  | EmptyString => EmptyString
  | String c s' =>
      match rstrip_slash s' with
      | EmptyString => if decide (c = "/"%char) then EmptyString else String c EmptyString
      | t => String c t
      end
  end.

Record SepexAPI : Type := { base_url : string }.

(** [SepexAPI.__init__] *)
Definition new_api (base : string) : SepexAPI :=
  {| base_url := rstrip_slash base |}.

(** The [Process] model.  Validation follows pydantic 2 (the code calls
    [model_dump]): every annotated field without a default is required, a
    [str] field accepts only a string, [List[str]] only a list of strings,
    [Optional[Any]] any value; other keys are ignored. *)
Record Process : Type := {
  version : string;
  id : string;
  title : string;
  description : string;
  jobControlOptions : list string;
  outputTransmission : pyval;
}.

Definition as_str (v : pyval) : option string :=
  match v with PStr s => Some s | _ => None end.

Definition as_str_list (v : pyval) : option (list string) :=
  match v with PList l => mapM as_str l | _ => None end.

Definition Process_validate (kw : kwargs) : option Process :=
  v ← lookup_key "version" kw ≫= as_str;
  i ← lookup_key "id" kw ≫= as_str;
  t ← lookup_key "title" kw ≫= as_str;
  d ← lookup_key "description" kw ≫= as_str;
  j ← lookup_key "jobControlOptions" kw ≫= as_str_list;
  o ← lookup_key "outputTransmission" kw;
  Some {| version := v; id := i; title := t; description := d;
          jobControlOptions := j; outputTransmission := o |}.

(** The envelope step of [fetch_table]:
<<
    if isinstance(data, dict):
        for v in data.values():
            if isinstance(v, list):
                data = v
                break
>> *)
Definition unwrap_envelope (data : pyval) : pyval :=
  match data with
  | PDict kvs =>
      match list_find (fun v => is_list v = true) kvs.*2 with
      | Some (_, v) => v
      | None => data
      end
  | _ => data
  end.

(** [data.get("processes", [])]: only a dict has [get]. *)
Definition get_processes (data : pyval) : M pyval :=
  match data with
  | PDict kvs => mret (default (PList []) (lookup_key "processes" kvs))
  | _ => raise AttributeError
  end.

(** ["id" in p]: key test on a dict, substring test on a string, element
    test on a list; other values do not support [in]. *)
Definition contains_id (p : pyval) : M bool :=
  match p with
  | PDict kvs => mret (bool_decide ("id" ∈ kvs.*1))
  | PStr s => mret (bool_decide (is_Some (String.index 0 "id" s)))
  | PList l => mret (bool_decide (Some "id" ∈ as_str <$> l))
  | _ => raise TypeError
  end.

(** One step of the comprehension
    [{p["id"]: Process( ** p ).model_dump() for p in processes if "id" in p}]:
    the key [p["id"]] needs a dict (a string or a list cannot be indexed by
    ["id"]); a validated process has a string id, equal to [p["id"]]. *)
Definition add_process (acc : gmap string Process) (p : pyval) : M (gmap string Process) :=
  b ← contains_id p;
  if b : bool then
    match p with
    | PDict kw =>
        r ← construct Process_validate p;
        mret (<[id r := r]> acc)
    | _ => raise TypeError
    end
  else mret acc.

Fixpoint collect_processes (acc : gmap string Process) (ps : list pyval)
  : M (gmap string Process) :=
  match ps with
  | [] => mret acc
  | p :: ps' => acc' ← add_process acc p; collect_processes acc' ps'
  end.

Section Client.
Variable http : request -> outcome.

(** [SepexAPI.fetch_table]; the table is the list of validated records (one
    row per record, [pd.DataFrame([item.model_dump() for item in items])]),
    [None] is Python's [None]. *)
Definition fetch_table {R} (api : SepexAPI) (endpoint : string)
    (model_cls : kwargs -> option R) (params : option kwargs)
  : M (option (list R)) :=
  let url := base_url api +:+ "/" +:+ endpoint in
  response ← get http {| url := url; params := None |};
  if decide (status_code response = 200%Z) then
    data ← json response;
    let data := unwrap_envelope data in
    elems ← iterate data;
    items ← mapM (construct model_cls) elems;
    mret (Some items)
  else
    _ ← emit (Print ("Failed to fetch data from " +:+ endpoint +:+ ": "
                      +:+ pretty (status_code response)));
    mret None.

(** [SepexAPI.fetch_processes_dict] *)
Definition fetch_processes_dict (api : SepexAPI) (endpoint : string)
  : M (gmap string Process) :=
  let url := base_url api +:+ "/" +:+ endpoint in
  response ← get http {| url := url; params := None |};
  if decide (status_code response = 200%Z) then
    data ← json response;
    processes ← get_processes data;
    ps ← iterate processes;
    collect_processes ∅ ps
  else
    _ ← emit (Print ("Failed to fetch processes: " +:+ pretty (status_code response)));
    mret ∅.
End Client.

(** *** Vocabulary of the statements and sample responses *)

(** A network that answers every request with the same response. *)
Definition always (status : Z) (data : option pyval) : request -> outcome :=
  fun _ => Responded {| status_code := status; body := data |}.

(** The request [fetch_table] and [fetch_processes_dict] send: the URL, and
    no query parameters. *)
Definition request_for (api : SepexAPI) (endpoint : string) : request :=
  {| url := base_url api +:+ "/" +:+ endpoint; params := None |}.

(** What [fetch_table] does after a 200 response with a JSON body. *)
Definition decode_table {R} (model_cls : kwargs -> option R) (data : pyval)
  : M (option (list R)) :=
  elems ← iterate (unwrap_envelope data);
  items ← mapM (construct model_cls) elems;
  mret (Some items).

(** The entries of the processes array that have an "id" key. *)
Definition with_id (entries : list kwargs) : list kwargs :=
  filter (fun kw : kwargs => "id" ∈ kw.*1) entries.

(** The dict built from validated processes, later ones replacing earlier
    ones with the same id. *)
Definition keyed (acc : gmap string Process) (rs : list Process) : gmap string Process :=
  foldl (fun d r => <[id r := r]> d) acc rs.

(** A processes listing with one complete entry, one entry without "id" and
    nothing else. *)
Definition sample_process : kwargs :=
  [("version", PStr "1.0"); ("id", PStr "p1"); ("title", PStr "First");
   ("description", PStr "d"); ("jobControlOptions", PList [PStr "async-execute"]);
   ("outputTransmission", PNone)].

Definition sample_listing : pyval :=
  PDict [("processes", PList [PDict sample_process; PDict [("title", PStr "no id")]]);
         ("links", PList [])].

End Sepex.

(** ** The jobs overview ([helpers.py]) *)

Module Helpers.
Import Py Sepex.

(** A key of a job record: absent from the dict, present with [None], or
    present with a value.  A record holds the six keys of the [Job] model,
    typed as the model types them; [updated] is an already parsed timestamp
    ([pd.to_datetime] leaves it unchanged). *)
Inductive field (A : Type) : Type :=
  | Absent
  | Null
  | Val (a : A).
Global Arguments Absent {A}.
Global Arguments Null {A}.
Global Arguments Val {A} a.

Record job : Type := {
  jobID : field string;
  updated : field Z;
  status : field string;
  processID : field string;
  type_ : field string;
  submitter : field string;
}.

Definition present {A} (f : field A) : bool :=
  match f with Absent => false | _ => true end.

(** The cell of a DataFrame column: a missing key and [None] are both
    missing values. *)
Definition cell {A} (f : field A) : option A :=
  match f with Val a => Some a | _ => None end.

(** [key in df.columns]: [pd.DataFrame(jobs)] has a column for every key that
    occurs in some record. *)
Definition has_column {A} (key : job -> field A) (jobs : list job) : bool :=
  existsb (fun j => present (key j)) jobs.

(** [df[key]] *)
Definition column {A} (key : job -> field A) (jobs : list job) : list (option A) :=
  (fun j => cell (key j)) <$> jobs.

(** [df.empty]: no rows or no columns. *)
Definition df_empty (jobs : list job) : bool :=
  bool_decide (jobs = []) ||
  negb (has_column jobID jobs || has_column updated jobs || has_column status jobs
        || has_column processID jobs || has_column type_ jobs
        || has_column submitter jobs).

Section ProcessMaps.
Variable http : request -> outcome.

(** [get_process_maps]: a validated title is a string, so
    [info.get("title") or ""] is the title. *)
Definition get_process_maps (api : SepexAPI)
  : M (gmap string string * gmap string pyval) :=
  processes_dict ← fetch_processes_dict http api "processes";
  mret (title <$> processes_dict, ∅).
End ProcessMaps.

(** *** KPIs (lines 62-75) *)

Record kpis : Type := {
  total_jobs : nat;
  unique_processes : nat;
  last_seen : option Z;
  successful : nat;
  failed : nat;
  running : nat;
}.

(** ["updated" in df.columns and not df["updated"].isna().all()] *)
Definition timestamped (jobs : list job) : bool :=
  has_column updated jobs && negb (forallb (fun c => bool_decide (c = None)) (column updated jobs)).

(** [Series.max()] and [Series.min()] skip missing values and give [NaT]
    ([None]) when nothing is left. *)
Definition series_max (col : list (option Z)) : option Z :=
  match Breakdown.dropna col with
  | [] => None
  | t :: ts => Some (foldr Z.max t ts)
  end.

Definition series_min (col : list (option Z)) : option Z :=
  match Breakdown.dropna col with
  | [] => None
  | t :: ts => Some (foldr Z.min t ts)
  end.

(** [int(df[df["status"] == s].shape[0]) if "status" in df.columns else 0] *)
Definition count_status (s : string) (jobs : list job) : nat :=
  if has_column status jobs
  then length (filter (fun c => c = Some s) (column status jobs))
  else 0.

Definition compute_kpis (jobs : list job) : kpis :=
  {| total_jobs := length jobs;
     unique_processes :=
       if has_column processID jobs
       then Breakdown.distinct (Breakdown.dropna (column processID jobs))
       else 0;
     last_seen :=
       if timestamped jobs then series_max (column updated jobs) else None;
     successful := count_status "successful" jobs;
     failed := count_status "failed" jobs;
     running := count_status "running" jobs |}.

(** *** Bucket selection (lines 89-102) *)

Definition nanoseconds_per_second : Z := 1000000000.
Definition Timedelta_days (d : Z) : Z := d * 86400 * nanoseconds_per_second.
Definition Timedelta_hours (h : Z) : Z := h * 3600 * nanoseconds_per_second.
Definition Timedelta_minutes (m : Z) : Z := m * 60 * nanoseconds_per_second.

(** [max_ts - min_ts]; [NaT] propagates. *)
Definition span_of (jobs : list job) : option Z :=
  mx ← series_max (column updated jobs);
  mn ← series_min (column updated jobs);
  Some (mx - mn)%Z.

(** [span >= pd.Timedelta(...)]; a comparison with [NaT] is false. *)
Definition span_ge (span : option Z) (d : Z) : bool :=
  match span with
  | Some s => bool_decide (d ≤ s)%Z
  | None => false
  end.

Definition select_bucket (span : option Z) : bucket :=
  if span_ge span (Timedelta_days 7) then B1d
  else if span_ge span (Timedelta_days 2) then B12h
  else if span_ge span (Timedelta_hours 6) then B1h
  else B15min.

Definition bucket_width (b : bucket) : Z :=
  match b with
  | B1d => Timedelta_days 1
  | B12h => Timedelta_hours 12
  | B1h => Timedelta_hours 1
  | B15min => Timedelta_minutes 15
  end.

(** The bucket chosen for a job list, when the chart branch is taken. *)
Definition bucket_of (jobs : list job) : option bucket :=
  if timestamped jobs then Some (select_bucket (span_of jobs)) else None.

(** *** Time series (lines 104-105)

    [groupby([pd.Grouper(freq=bucket), "status"]).size()]: a row with a
    timestamp and a status falls in the bucket that starts at the multiple of
    the width below its timestamp; rows missing either are dropped.  The
    table is kept as a map from (bucket start, status) to count; the order
    of its rows is not represented.

    The multiple is counted from the epoch, which is where pandas anchors
    the buckets of an index in UTC or without time zone; for an index with
    another UTC offset the anchor is midnight in that offset
    ([bucket_start_at] below gives the buckets for any anchor). *)
Definition bucket_start (b : bucket) (t : Z) : Z :=
  (t `div` bucket_width b * bucket_width b)%Z.

Definition series_keys (b : bucket) (jobs : list job) : list (Z * string) :=
  omap (fun j =>
          match cell (updated j), cell (status j) with
          | Some t, Some s => Some (bucket_start b t, s)
          | _, _ => None
          end) jobs.

Definition count_keys (ks : list (Z * string)) : gmap (Z * string) nat :=
  foldr (fun k m => <[k := S (default 0 (m !! k))]> m) ∅ ks.

(** *** Categorical columns (lines 136 and 169) *)

(** [astype(str)] on an object column: [None] becomes ["None"], a missing
    cell ["nan"].  This is what pandas 2 does; pandas 3 keeps a missing
    value missing, and [value_counts] then leaves the job out.  The two agree
    on every record that has a process id. *)
Definition astype_str (f : field string) : string :=
  match f with
  | Val s => s
  | Null => "None"
  | Absent => "nan"
  end.

(** [df["processID"].astype(str).map(lambda x: process_map.get(x, x))] *)
Definition process_titles (process_map : gmap string string) (jobs : list job)
  : list string :=
  (fun j => let x := astype_str (processID j) in default x (process_map !! x)) <$> jobs.

Section Render.
Variable http : request -> outcome.

Definition render_charts (process_map : gmap string string) (jobs : list job)
  : M unit :=
  if timestamped jobs then
    let b := select_bucket (span_of jobs) in
    _ ← (if has_column status jobs then mret tt else raise (KeyError "status"));
    let counts := count_keys (series_keys b jobs) in
    _ ← (if decide (counts = ∅) then mret tt
         else emit (StChart (TimeSeries b counts)));
    if has_column processID jobs then
      let titles := process_titles process_map jobs in
      _ ← emit (StChart (ProcessPie (Breakdown.top_n_with_overflow (Some <$> titles))));
      if has_column submitter jobs then
        emit (StChart (SubmitterBar
                         (Breakdown.top_n_with_overflow (column submitter jobs))))
      else emit (StInfo "No submitter data to show distribution.")
    else emit (StInfo "No processID field to show distribution.")
  else
    _ ← emit (StInfo "No timestamped jobs to chart.");
    emit (StInfo "No processID data.").

Definition render_jobs_overview (jobs : list job) (api : SepexAPI) : M unit :=
  if df_empty jobs then
    emit (StInfo "No jobs available for overview charts.")
  else
    maps ← get_process_maps http api;
    let process_map := maps.1 in
    let k := compute_kpis jobs in
    _ ← emit (StMetric "Total jobs" (pretty (total_jobs k)));
    _ ← emit (StMetric "Unique processes" (pretty (unique_processes k)));
    _ ← emit (StMetric "Successful" (pretty (successful k)));
    _ ← (match last_seen k with
         | Some t => emit (StMetricTime "Last seen (UTC)" t)
         | None => emit (StMetric "Last seen (UTC)" "N/A")
         end);
    render_charts process_map jobs.
End Render.

(** *** Vocabulary of the statements and sample jobs *)

(** A job record with all six keys, updated at [t]. *)
Definition job_at (t : Z) : job :=
  {| jobID := Val "j"; updated := Val t; status := Val "successful";
     processID := Val "p"; type_ := Null; submitter := Null |}.

(** Three jobs, the first and the last exactly six hours apart. *)
Definition six_hour_jobs : list job :=
  [job_at (1000 + Timedelta_hours 6); job_at 1000; job_at (1000 + Timedelta_hours 2)].

(** The timestamps that are present in the [updated] column. *)
Definition timestamps (jobs : list job) : list Z :=
  Breakdown.dropna (column updated jobs).

(** A job record without any key (the dict [{}]). *)
Definition no_keys : job :=
  {| jobID := Absent; updated := Absent; status := Absent;
     processID := Absent; type_ := Absent; submitter := Absent |}.

(** A job record that has only a [status] key. *)
Definition status_only (s : string) : job :=
  {| jobID := Absent; updated := Absent; status := Val s;
     processID := Absent; type_ := Absent; submitter := Absent |}.

End Helpers.

(** ** The dashboard script ([home.py]) *)

Module Home.
Import Py Sepex Helpers.

(** The [Job] model of [sepex.py]; [type] and [submitter] may be [None]. *)
Record Job : Type := {
  Job_jobID : string;
  Job_updated : Z;
  Job_status : string;
  Job_processID : string;
  Job_type : option string;
  Job_submitter : option string;
}.

Definition optional {A} (o : option A) : field A :=
  match o with Some a => Val a | None => Null end.

(** One record of [df_all.to_dict(orient="records")]: every column of the
    table is a key.  The timestamp is the instant alone: a table whose
    timestamps carry different UTC offsets, which [pd.to_datetime] does not
    convert, is not represented. *)
Definition to_record (j : Job) : job :=
  {| jobID := Val (Job_jobID j);
     updated := Val (Job_updated j);
     status := Val (Job_status j);
     processID := Val (Job_processID j);
     type_ := optional (Job_type j);
     submitter := optional (Job_submitter j) |}.

(** State of the loop over [urls_to_try]. *)
Record meta_state : Type := {
  meta_data : option pyval;
  last_status : option Z;
  last_error : option string;
}.

Definition meta_init : meta_state :=
  {| meta_data := None; last_status := None; last_error := None |}.

(** The error message of the metadata branch (lines 267-273); [if last_error:]
    is false for [None] and for the empty string. *)
Definition metadata_failure (s : meta_state) : string :=
  match last_error s with
  | Some (String c msg) =>
      "Failed to fetch metadata. Last error: " +:+ String c msg
  | _ =>
      match last_status s with
      | Some code => "Failed to fetch metadata. Last status: " +:+ pretty code
      | None => "Failed to fetch metadata: unknown error."
      end
  end.

Section Script.
Variable http : request -> outcome.
(** The [Job] class as a validator of keyword arguments. *)
Variable Job_validate : kwargs -> option Job.
(** [JobMetadataResponse( ** raw ).model_dump()], [None] on a
    [ValidationError]. *)
Variable JobMetadataResponse : kwargs -> option pyval.

(** Lines 27-32: fetch all jobs once and render the overview. *)
Definition jobs_overview (api : SepexAPI) : M unit :=
  raw_all ← fetch_table http api "jobs" Job_validate
              (Some [("limit", PInt 500); ("offset", PInt 0)]);
  let df_all := default [] raw_all in
  render_jobs_overview http (to_record <$> df_all) api.

(** Lines 66-73: the jobs panel fetches the jobs of the selected process;
    without a table or without rows it shows a message and clears the
    selected job.  What it does with rows ([show_jobs_table]: filters, header,
    one line per job) is not part of this model.  The result is the new
    value of [st.session_state.selected_job_id]. *)
Variable show_jobs_table : list Job -> option string -> M (option string).

Definition jobs_panel (api : SepexAPI) (selected_process_id selected_job_id : option string)
  : M (option string) :=
  df ← fetch_table http api "jobs" Job_validate
         (Some [("limit", PInt 1000);
                ("processID", from_option PStr PNone selected_process_id)]);
  match df with
  | None | Some [] => _ ← emit (StInfo "No jobs found."); mret None
  | Some rows => show_jobs_table rows selected_job_id
  end.

(** Lines 248-263: the loop, with its [continue] and [break]. *)
Fixpoint try_urls (urls : list string) (s : meta_state) : M meta_state :=
  match urls with
  | [] => mret s
  | u :: rest =>
      o ← try_get http {| url := u; params := None |};
      match o with
      | Raised msg =>
          try_urls rest {| meta_data := meta_data s;
                           last_status := last_status s;
                           last_error := Some msg |}
      | Responded resp =>
          let s' := {| meta_data := meta_data s;
                       last_status := Some (status_code resp);
                       last_error := last_error s |} in
          if decide (status_code resp = 200%Z) then
            raw ← json resp;
            match raw with
            | PDict kw =>
                let shown := default raw (JobMetadataResponse kw) in
                mret {| meta_data := Some shown;
                        last_status := last_status s';
                        last_error := last_error s' |}
            | _ => raise TypeError
            end
          else try_urls rest s'
      end
  end.

Definition metadata_urls (api : SepexAPI) (selected_job_id : string) : list string :=
  [ base_url api +:+ "/jobs/" +:+ selected_job_id +:+ "/metadata";
    base_url api +:+ "/jobs/" +:+ selected_job_id ].

(** Lines 238-273: the Metadata branch of the job-details panel. *)
Definition show_metadata (api : SepexAPI) (selected_job_id : string) : M unit :=
  s ← try_urls (metadata_urls api selected_job_id) meta_init;
  match meta_data s with
  | Some v => emit (StJson v)
  | None => emit (StError (metadata_failure s))
  end.
End Script.

(** *** Vocabulary of the statements *)

(** An attempt fails when the request raises or the status is not 200. *)
Definition failed_attempt (o : outcome) : Prop :=
  match o with
  | Raised _ => True
  | Responded r => status_code r <> 200%Z
  end.

Definition primary_request (api : SepexAPI) (job_id : string) : request :=
  {| url := base_url api +:+ "/jobs/" +:+ job_id +:+ "/metadata"; params := None |}.

Definition secondary_request (api : SepexAPI) (job_id : string) : request :=
  {| url := base_url api +:+ "/jobs/" +:+ job_id; params := None |}.

(** The message shown after two failed attempts, by cases on what the two
    attempts gave: the message of the most recent exception if it is not
    empty, otherwise the most recent status, otherwise "unknown error". *)
Definition failure_report (first second : outcome) : string :=
  match first, second with
  | _, Raised (String c msg) =>
      "Failed to fetch metadata. Last error: " +:+ String c msg
  | Raised _, Raised EmptyString => "Failed to fetch metadata: unknown error."
  | Responded r1, Raised EmptyString =>
      "Failed to fetch metadata. Last status: " +:+ pretty (status_code r1)
  | Raised (String c msg), Responded r2 =>
      "Failed to fetch metadata. Last error: " +:+ String c msg
  | _, Responded r2 =>
      "Failed to fetch metadata. Last status: " +:+ pretty (status_code r2)
  end.

(** The report the specification describes: what the last attempt gave. *)
Definition last_observed_report (last : outcome) : string :=
  match last with
  | Raised msg => "Failed to fetch metadata. Last error: " +:+ msg
  | Responded r => "Failed to fetch metadata. Last status: " +:+ pretty (status_code r)
  end.

(** A network where the metadata endpoint is unreachable and the job
    endpoint answers 500. *)
Definition unreachable_then_500 (r : request) : outcome :=
  if decide (url r = "http://localhost:5050/jobs/j1/metadata")
  then Raised "boom"
  else Responded {| status_code := 500; body := None |}.

End Home.

(** ** The YAML listing of processes ([sepex.py], lines 40-57) *)

Module ProcessesYaml.
Import Py Sepex.

(** [p["id"]]: a dict gives the value or raises [KeyError]; no other JSON
    value can be indexed by a string. *)
Definition subscript_id (p : pyval) : M pyval :=
  match p with
  | PDict kvs =>
      match lookup_key "id" kvs with
      | Some v => mret v
      | None => raise (KeyError "id")
      end
  | _ => raise TypeError
  end.

Section Yaml.
Variable http : request -> outcome.
(** [yaml.dump(dumps, sort_keys=False)] *)
Variable yaml_dump : list Process -> string.

(** [SepexAPI.fetch_processes_yaml]: the ids are collected from all entries
    before any entry is validated. *)
Definition fetch_processes_yaml (api : SepexAPI) (endpoint : string)
  : M (option (list pyval * string)) :=
  let url := base_url api +:+ "/" +:+ endpoint in
  response ← get http {| url := url; params := None |};
  if decide (status_code response = 200%Z) then
    data ← json response;
    processes ← get_processes data;
    ps ← iterate processes;
    process_ids ← mapM subscript_id ps;
    dumps ← mapM (construct Process_validate) ps;
    mret (Some (process_ids, yaml_dump dumps))
  else
    _ ← emit (Print ("Failed to fetch processes: " +:+ pretty (status_code response)));
    mret None.
End Yaml.

End ProcessesYaml.

(** ** The jobs table filters and the Results and Logs panels ([home.py]) *)

Module Panels.
Import Py Sepex Home.

(** *** Filters of the jobs table (lines 93-104) *)

Section Filters.
(** What [astype(str)] makes of a missing value: the string ["None"]
    (pandas 2), or again a missing value, which equals no string
    (pandas 3). *)
Variable missing_as_str : option string.

(** [df["submitter"].astype(str)] *)
Definition submitter_str (j : Job) : option string :=
  match Job_submitter j with
  | Some s => Some s
  | None => missing_as_str
  end.

Definition apply_filters (selected_status selected_process_filter
                          selected_submitter_filter : string) (df : list Job) : list Job :=
  let df := if decide (selected_status = "All") then df
            else filter (fun j => Job_status j = selected_status) df in
  let df := if decide (selected_process_filter = "All") then df
            else filter (fun j => Job_processID j = selected_process_filter) df in
  if decide (selected_submitter_filter = "All") then df
  else filter (fun j => submitter_str j = Some selected_submitter_filter) df.
End Filters.

(** *** Models of the detail panels *)

Record JobResultsResponse : Type := {
  results_jobID : string;
  results_processID : string;
  results : kwargs;
}.

(** [results: dict] accepts only a JSON object. *)
Definition JobResultsResponse_validate (kw : kwargs) : option JobResultsResponse :=
  j ← lookup_key "jobID" kw ≫= as_str;
  p ← lookup_key "processID" kw ≫= as_str;
  r ← lookup_key "results" kw;
  match r with
  | PDict d => Some {| results_jobID := j; results_processID := p; results := d |}
  | _ => None
  end.

Record LogEntry : Type := {
  level : string;
  msg : string;
  time : string;
}.

Definition LogEntry_validate (v : pyval) : option LogEntry :=
  match v with
  | PDict kw =>
      l ← lookup_key "level" kw ≫= as_str;
      m ← lookup_key "msg" kw ≫= as_str;
      t ← lookup_key "time" kw ≫= as_str;
      Some {| level := l; msg := m; time := t |}
  | _ => None
  end.

Definition as_log_list (v : pyval) : option (list LogEntry) :=
  match v with PList l => mapM LogEntry_validate l | _ => None end.

Record JobLogsResponse : Type := {
  logs_jobID : string;
  logs_processID : string;
  logs_status : string;
  process_logs : list LogEntry;
  server_logs : list LogEntry;
}.

Definition JobLogsResponse_validate (kw : kwargs) : option JobLogsResponse :=
  j ← lookup_key "jobID" kw ≫= as_str;
  p ← lookup_key "processID" kw ≫= as_str;
  s ← lookup_key "status" kw ≫= as_str;
  pl ← lookup_key "process_logs" kw ≫= as_log_list;
  sl ← lookup_key "server_logs" kw ≫= as_log_list;
  Some {| logs_jobID := j; logs_processID := p; logs_status := s;
          process_logs := pl; server_logs := sl |}.

(** The one widget a detail branch ends with. *)
Inductive view : Type :=
  | VError (text : string)
  | VJson (v : pyval)
  | VJsonLogs (logs : list LogEntry)
  | VDataframe (v : pyval)
  | VCode (text : string).

Definition newline : string := String (ascii_of_nat 10) EmptyString.

Section Details.
Variable http : request -> outcome.
(** Whether [pd.DataFrame(results)] succeeds. *)
Variable dataframe_ok : pyval -> bool.
(** [bool(x)] of a float, by its text. *)
Variable float_truthy : string -> bool.
(** [str(v)] of a value that is not a string. *)
Variable py_repr : pyval -> string.

(** Lines 179-207: the Results branch. *)
Definition show_results (api : SepexAPI) (selected_job_id : string) : M view :=
  o ← try_get http {| url := base_url api +:+ "/jobs/" +:+ selected_job_id +:+ "/results";
                      params := None |};
  match o with
  | Raised e => mret (VError ("Error calling results endpoint: " +:+ e))
  | Responded resp =>
      if decide (status_code resp = 200%Z) then
        raw ← json resp;
        match raw with
        | PDict kw =>
            let shown := match JobResultsResponse_validate kw with
                         | Some job_results => PDict (results job_results)
                         | None => raw
                         end in
            match shown with
            | PList _ =>
                if dataframe_ok shown then mret (VDataframe shown) else mret (VJson shown)
            | _ => mret (VJson shown)
            end
        | _ => raise TypeError
        end
      else mret (VError ("Failed to fetch results: " +:+ pretty (status_code resp)))
  end.

(** The value bound to [process_logs]: the validated list of [LogEntry]
    objects, or a raw JSON value after a [ValidationError]. *)
Inductive logs_value : Type :=
  | ValidatedLogs (logs : list LogEntry)
  | RawLogs (v : pyval).

(** [process_logs and isinstance(process_logs[0], dict) and "msg" in
    process_logs[0]]: a falsy value stops the test; a [LogEntry] is not a
    dict; a non-empty dict has no key [0]; a number cannot be indexed; the
    first character of a string is not a dict. *)
Definition starts_with_msg_dict (p : logs_value) : M bool :=
  match p with
  | ValidatedLogs _ => mret false
  | RawLogs (PList []) => mret false
  | RawLogs (PList (PDict kw :: _)) => mret (bool_decide ("msg" ∈ kw.*1))
  | RawLogs (PList (_ :: _)) => mret false
  | RawLogs (PStr _) => mret false
  | RawLogs (PDict []) => mret false
  | RawLogs (PDict (_ :: _)) => raise (KeyError "0")
  | RawLogs PNone => mret false
  | RawLogs (PBool b) => if b then raise TypeError else mret false
  | RawLogs (PInt n) => if decide (n = 0%Z) then mret false else raise TypeError
  | RawLogs (PFloat r) => if float_truthy r then raise TypeError else mret false
  end.

(** [f"{v}"] *)
Definition py_str (v : pyval) : string :=
  match v with PStr s => s | _ => py_repr v end.

(** One formatted line; [log.get] needs a dict. *)
Definition format_log (log : pyval) : M string :=
  match log with
  | PDict kw =>
      mret ("[" +:+ py_str (default (PStr "") (lookup_key "level" kw)) +:+ "] "
            +:+ py_str (default (PStr "") (lookup_key "time" kw)) +:+ " - "
            +:+ py_str (default (PStr "") (lookup_key "msg" kw)))
  | _ => raise AttributeError
  end.

(** The list comprehension over [process_logs]; a [LogEntry] has no [get]. *)
Definition format_logs (p : logs_value) : M (list string) :=
  match p with
  | ValidatedLogs [] => mret []
  | ValidatedLogs (_ :: _) => raise AttributeError
  | RawLogs v => logs ← iterate v; mapM format_log logs
  end.

(** [st.json(process_logs)] *)
Definition json_view (p : logs_value) : view :=
  match p with
  | ValidatedLogs logs => VJsonLogs logs
  | RawLogs v => VJson v
  end.

(** Lines 210-235: the Logs branch. *)
Definition show_logs (api : SepexAPI) (selected_job_id : string) : M view :=
  o ← try_get http {| url := base_url api +:+ "/jobs/" +:+ selected_job_id +:+ "/logs";
                      params := None |};
  match o with
  | Raised e => mret (VError ("Error calling logs endpoint: " +:+ e))
  | Responded resp =>
      if decide (status_code resp = 200%Z) then
        raw ← json resp;
        match raw with
        | PDict kw =>
            let logs :=
              match JobLogsResponse_validate kw with
              | Some logs_response => ValidatedLogs (process_logs logs_response)
              | None => RawLogs (default raw (lookup_key "process_logs" kw))
              end in
            b ← starts_with_msg_dict logs;
            if b : bool then
              lines ← format_logs logs;
              mret (VCode (String.concat newline lines))
            else mret (json_view logs)
        | _ => raise TypeError
        end
      else mret (VError ("Failed to fetch logs: " +:+ pretty (status_code resp)))
  end.
End Details.

End Panels.

(** ** Vocabulary of the statements about the overview and the panels *)

Module OverviewVocabulary.
Import Py Sepex Helpers Home.


(** [pd.Grouper(freq=...)] with its default [origin="start_day"]: the
    buckets are counted from [origin], midnight of the first day of the
    index in the index's own UTC offset. *)
Definition bucket_start_at (origin : Z) (b : bucket) (t : Z) : Z :=
  (origin + (t - origin) `div` bucket_width b * bucket_width b)%Z.


(** The four metrics of the KPI row, in the order they are shown. *)
Definition kpi_metrics (jobs : list job) : list event :=
  [StMetric "Total jobs" (pretty (total_jobs (compute_kpis jobs)));
   StMetric "Unique processes" (pretty (unique_processes (compute_kpis jobs)));
   StMetric "Successful" (pretty (successful (compute_kpis jobs)));
   match last_seen (compute_kpis jobs) with
   | Some t => StMetricTime "Last seen (UTC)" t
   | None => StMetric "Last seen (UTC)" "N/A"
   end].

(** A job record with a timestamp and nothing else. *)
Definition timestamp_only (t : Z) : job :=
  {| jobID := Absent; updated := Val t; status := Absent;
     processID := Absent; type_ := Absent; submitter := Absent |}.

(** Two validated jobs of the same process, one without submitter. *)
Definition two_jobs : list Job :=
  [ {| Job_jobID := "j1"; Job_updated := 0; Job_status := "successful";
       Job_processID := "p1"; Job_type := Some "process"; Job_submitter := Some "ann" |};
    {| Job_jobID := "j2"; Job_updated := Timedelta_hours 1; Job_status := "failed";
       Job_processID := "p1"; Job_type := None; Job_submitter := None |} ].

End OverviewVocabulary.

Module PanelSamples.
Import Py Panels.

(** A valid logs response with one entry, and a response that lacks
    "server_logs". *)
Definition sample_log : kwargs :=
  [("level", PStr "info"); ("msg", PStr "started"); ("time", PStr "12:00")].

Definition valid_logs : kwargs :=
  [("jobID", PStr "j1"); ("processID", PStr "p1"); ("status", PStr "running");
   ("process_logs", PList [PDict sample_log]); ("server_logs", PList [])].

Definition partial_logs : kwargs :=
  [("process_logs", PList [PDict sample_log; PDict [("msg", PStr "done")]])].

End PanelSamples.

(** * Properties *)

(** ** Counting and sorting *)

Module BreakdownFacts.
Import Breakdown.

Lemma add_count_sum v w t :
  sum_list (add_count v w t).*2 = sum_list t.*2 + w.
Proof.
  induction t as [|[k c] t IH]; csimpl; [lia|].
  case_decide; csimpl; [|rewrite IH]; lia.
Qed.

Lemma add_count_fresh v w t :
  v ∉ t.*1 -> add_count v w t = t ++ [(v, w)].
Proof.
  induction t as [|[k c] t IH]; csimpl; intros Hv; [done|].
  apply not_elem_of_cons in Hv as [Hne Hv].
  case_decide; [congruence|]. by rewrite IH.
Qed.

Lemma add_count_keys_known v w t :
  v ∈ t.*1 -> (add_count v w t).*1 = t.*1.
Proof.
  induction t as [|[k c] t IH]; csimpl; intros Hv; [by apply elem_of_nil in Hv|].
  case_decide; csimpl; [done|].
  apply elem_of_cons in Hv as [->|Hv]; [done|]. by rewrite IH.
Qed.

Lemma add_count_elem k v w t :
  k ∈ (add_count v w t).*1 <-> k = v \/ k ∈ t.*1.
Proof.
  destruct (decide (v ∈ t.*1)) as [Hin|Hnin].
  - rewrite add_count_keys_known by done. split; [by right|]. by intros [->|?].
  - rewrite add_count_fresh by done. rewrite fmap_app, elem_of_app. csimpl.
    rewrite list_elem_of_singleton. tauto.
Qed.

Lemma add_count_NoDup v w t :
  NoDup t.*1 -> NoDup (add_count v w t).*1.
Proof.
  intros Hnd. destruct (decide (v ∈ t.*1)) as [Hin|Hnin].
  - by rewrite add_count_keys_known.
  - rewrite add_count_fresh by done. rewrite fmap_app. csimpl.
    apply NoDup_app. split_and!; [done| |apply NoDup_singleton].
    intros x Hx Hx'. apply list_elem_of_singleton in Hx'. by subst.
Qed.

Lemma recorded_cons k (r : row) t :
  recorded k (r :: t) = (if decide (r.1 = k) then r.2 else 0) + recorded k t.
Proof.
  unfold recorded. case_decide.
  - by rewrite filter_cons_True.
  - by rewrite filter_cons_False.
Qed.

Lemma recorded_add_count k v w t :
  recorded k (add_count v w t) = recorded k t + (if decide (v = k) then w else 0).
Proof.
  induction t as [|[k' c] t IH]; csimpl.
  - rewrite recorded_cons. csimpl. unfold recorded. rewrite filter_nil. csimpl.
    case_decide; lia.
  - destruct (decide (k' = v)) as [->|Hne]; rewrite !recorded_cons; csimpl.
    + repeat case_decide; lia.
    + rewrite IH. lia.
Qed.

Lemma recorded_absent k t : k ∉ t.*1 -> recorded k t = 0.
Proof.
  induction t as [|[k' c] t IH]; csimpl; intros Hk; [done|].
  apply not_elem_of_cons in Hk as [Hne Hk].
  rewrite recorded_cons, IH by done. csimpl. by rewrite decide_False.
Qed.

Lemma recorded_row v c t :
  NoDup t.*1 -> (v, c) ∈ t -> recorded v t = c.
Proof.
  induction t as [|[k c'] t IH]; csimpl; intros Hnd Hin.
  - by apply elem_of_nil in Hin.
  - apply NoDup_cons in Hnd as [Hk Hnd]. rewrite recorded_cons. csimpl.
    apply elem_of_cons in Hin as [Heq|Hin].
    + injection Heq as -> ->. rewrite decide_True by done.
      rewrite recorded_absent by done. lia.
    + rewrite decide_False.
      * by apply IH.
      * intros ->. apply Hk. apply list_elem_of_fmap. by exists (v, c).
Qed.

(** The invariant of the counting loop, from any starting table. *)
Lemma tally_rows_from t0 rows :
  NoDup t0.*1 ->
  NoDup (tally_rows_loop t0 rows).*1 /\
  sum_list (tally_rows_loop t0 rows).*2 = sum_list t0.*2 + sum_list rows.*2 /\
  (forall k, k ∈ (tally_rows_loop t0 rows).*1 <-> k ∈ t0.*1 \/ k ∈ rows.*1) /\
  (forall k, recorded k (tally_rows_loop t0 rows) = recorded k t0 + recorded k rows).
Proof.
  unfold tally_rows_loop.
  revert t0. induction rows as [|[v w] rows IH]; intros t0 Hnd; csimpl.
  - split_and!; [done|lia| |].
    + intros k. rewrite elem_of_nil. tauto.
    + intros k. unfold recorded at 3. rewrite filter_nil. csimpl. lia.
  - destruct (IH (add_count v w t0) (add_count_NoDup v w t0 Hnd)) as (H1 & H2 & H3 & H4).
    split_and!; [done| | |].
    + rewrite H2, add_count_sum. lia.
    + intros k. rewrite H3, add_count_elem, elem_of_cons. tauto.
    + intros k. rewrite H4, recorded_add_count, recorded_cons. csimpl. lia.
Qed.

Lemma tally_rows_units values :
  tally_rows ((fun v => (v, 1)) <$> values) = tally values.
Proof.
  unfold tally_rows, tally. generalize (@nil row).
  induction values as [|v values IH]; intros t; csimpl; [done|]. apply IH.
Qed.

Lemma recorded_units k values :
  recorded k ((fun v => (v, 1)) <$> values) = occurrences k values.
Proof.
  unfold recorded, occurrences.
  induction values as [|v values IH]; csimpl; [done|].
  rewrite !filter_cons. csimpl. case_decide; csimpl; rewrite IH; done.
Qed.

Lemma sum_units values :
  sum_list ((fun v => (v, 1)) <$> values : list row).*2 = length values.
Proof. induction values; csimpl; [done|]. by rewrite IHvalues. Qed.

(** What the counting loop computes. *)
Lemma tally_spec values :
  NoDup (tally values).*1 /\
  sum_list (tally values).*2 = length values /\
  (forall k, k ∈ (tally values).*1 <-> k ∈ values) /\
  (forall v c, (v, c) ∈ tally values -> c = occurrences v values).
Proof.
  rewrite <- tally_rows_units.
  destruct (tally_rows_from [] ((fun v => (v, 1)) <$> values)) as (H1 & H2 & H3 & H4);
    [apply NoDup_nil_2|].
  change (tally_rows_loop [] ?r) with (tally_rows r) in *.
  split_and!; [done| | |].
  - rewrite H2, sum_units. done.
  - intros k. rewrite H3, <- list_fmap_compose. csimpl.
    rewrite elem_of_nil, list_fmap_id. tauto.
  - intros v c Hin. rewrite <- (recorded_row v c _ H1 Hin), H4, recorded_units.
    unfold recorded. by rewrite filter_nil.
Qed.

Lemma tally_length values : length (tally values) = distinct values.
Proof.
  destruct (tally_spec values) as (Hnd & _ & Hel & _).
  unfold distinct. rewrite <- (length_fmap fst (tally values)).
  apply Permutation_length, NoDup_Permutation; [done|apply NoDup_remove_dups|].
  intros k. rewrite Hel, elem_of_remove_dups. done.
Qed.

(** Sorting. *)

Lemma insert_desc_Permutation r l : insert_desc r l ≡ₚ r :: l.
Proof.
  induction l as [|r' l IH]; csimpl; [done|].
  case_decide; [done|]. rewrite IH. apply Permutation_swap.
Qed.

Lemma sort_desc_Permutation l : sort_desc l ≡ₚ l.
Proof.
  induction l as [|r l IH]; csimpl; [done|].
  by rewrite insert_desc_Permutation, IH.
Qed.

Lemma insert_desc_descending r l :
  descending l -> descending (insert_desc r l).
Proof.
  unfold descending. induction l as [|r' l IH]; csimpl; intros Hs.
  - by repeat constructor.
  - case_decide as Hle.
    + constructor; [done|]. by constructor.
    + apply Sorted_inv in Hs as [Hs Hhd]. constructor; [by apply IH|].
      destruct l as [|r'' l]; csimpl.
      * constructor. lia.
      * case_decide; constructor; [lia|]. by apply HdRel_inv in Hhd.
Qed.

Lemma sort_desc_descending l : descending (sort_desc l).
Proof.
  induction l as [|r l IH]; csimpl; [constructor|].
  by apply insert_desc_descending.
Qed.

(** A table that is already sorted is left as it is. *)
Lemma sort_desc_sorted l : descending l -> sort_desc l = l.
Proof.
  unfold descending. induction l as [|r l IH]; csimpl; intros Hs; [done|].
  apply Sorted_inv in Hs as [Hs Hhd]. rewrite IH by done.
  destruct Hhd as [|r' l Hle]; csimpl; [done|]. by rewrite decide_True.
Qed.

Lemma descending_split top tail :
  descending (top ++ tail) ->
  forall r r', r ∈ top -> r' ∈ tail -> r'.2 <= r.2.
Proof.
  intros Hs r r' Hr Hr'.
  assert (Htr : Transitive (fun a b : row => b.2 <= a.2)) by (intros ???; lia).
  apply Sorted_StronglySorted in Hs; [|done].
  by apply (StronglySorted_app_1_elem_of _ top tail r r' Hs).
Qed.

Lemma sum_counts_Permutation (l l' : list row) :
  l ≡ₚ l' -> sum_list l.*2 = sum_list l'.*2.
Proof. intros Hp. by rewrite Hp. Qed.

(** The overflow step. *)

Lemma collapse_overflow_over n counts :
  n < length counts ->
  collapse_overflow n counts =
    take n counts ++ [("other", sum_list (drop n counts).*2)] /\
  length (collapse_overflow n counts) = S n.
Proof.
  intros Hlt. unfold collapse_overflow. rewrite decide_True by done.
  split; [done|]. rewrite length_app, length_take. csimpl. lia.
Qed.

Lemma collapse_overflow_within n counts :
  length counts <= n -> collapse_overflow n counts = counts.
Proof.
  intros Hle. unfold collapse_overflow. rewrite decide_False; [done|lia].
Qed.

Lemma collapse_overflow_sum n counts :
  sum_list (collapse_overflow n counts).*2 = sum_list counts.*2.
Proof.
  unfold collapse_overflow. case_decide; [|done].
  rewrite fmap_app, sum_list_with_app. csimpl.
  rewrite <- (take_drop n counts) at 3. rewrite fmap_app, sum_list_with_app. lia.
Qed.

(** What [value_counts] computes: the frequency table of the values that
    are present, by descending count. *)
Lemma value_counts_spec col :
  let values := dropna col in
  let counts := value_counts col in
  descending counts /\
  NoDup counts.*1 /\
  length counts = distinct values /\
  sum_list counts.*2 = length values /\
  (forall v, v ∈ counts.*1 <-> v ∈ values) /\
  (forall v c, (v, c) ∈ counts -> c = occurrences v values).
Proof.
  intros values counts. subst counts. unfold value_counts. fold values.
  destruct (tally_spec values) as (Hnd & Hsum & Hel & Hocc).
  pose proof (sort_desc_Permutation (tally values)) as Hp.
  split_and!.
  - apply sort_desc_descending.
  - by rewrite Hp.
  - by rewrite Hp, tally_length.
  - by rewrite Hp.
  - intros v. by rewrite Hp.
  - intros v c Hin. rewrite Hp in Hin. by apply Hocc.
Qed.

(** Counting rows whose values are pairwise distinct changes nothing. *)
Lemma tally_rows_loop_distinct t0 rows :
  NoDup (t0 ++ rows).*1 -> tally_rows_loop t0 rows = t0 ++ rows.
Proof.
  unfold tally_rows_loop.
  revert t0. induction rows as [|[v w] rows IH]; intros t0 Hnd; csimpl.
  - by rewrite app_nil_r.
  - rewrite add_count_fresh.
    + rewrite IH; rewrite <- app_assoc; done.
    + rewrite fmap_app in Hnd. apply NoDup_app in Hnd as (_ & Hdisj & _).
      intros Hin. apply (Hdisj v Hin). csimpl. apply elem_of_cons. by left.
Qed.

Lemma value_counts_rows_fixed rows :
  NoDup rows.*1 -> descending rows -> value_counts_rows rows = rows.
Proof.
  intros Hnd Hs. unfold value_counts_rows, tally_rows.
  change (foldl _ [] rows) with (tally_rows_loop [] rows).
  rewrite tally_rows_loop_distinct by done. by apply sort_desc_sorted.
Qed.

(** C1: with more than ten distinct values the breakdown has eleven rows:
    the first ten rows of the frequency table, which are ten distinct
    values with their numbers of occurrences and no excluded value occurs
    more often than any of them, followed by one row labelled "other" that
    carries the sum of the excluded counts; the counts of the eleven rows
    add up to the number of values counted. *)
Theorem top_n_with_overflow_over (col : list (option string)) :
  top_n < distinct (dropna col) ->
  exists top tail : list row,
    value_counts col = top ++ tail /\
    length top = 10 /\
    top_n_with_overflow col = top ++ [("other", sum_list tail.*2)] /\
    length (top_n_with_overflow col) = 11 /\
    NoDup (top ++ tail).*1 /\
    (forall v, v ∈ (top ++ tail).*1 <-> v ∈ dropna col) /\
    (forall v c, (v, c) ∈ top ++ tail -> c = occurrences v (dropna col)) /\
    (forall r r', r ∈ top -> r' ∈ tail -> r'.2 <= r.2) /\
    sum_list (top_n_with_overflow col).*2 = length (dropna col).
Proof.
  intros Hover.
  destruct (value_counts_spec col) as (Hs & Hnd & Hlen & Hsum & Hel & Hocc).
  rewrite <- Hlen in Hover.
  destruct (collapse_overflow_over top_n (value_counts col) Hover) as [Heq Hl].
  exists (take top_n (value_counts col)), (drop top_n (value_counts col)).
  rewrite take_drop. unfold top_n_with_overflow.
  split_and!; try done.
  - rewrite length_take. unfold top_n in *. lia.
  - intros r r'. apply descending_split. by rewrite take_drop.
  - by rewrite collapse_overflow_sum.
Qed.

Lemma top_n_with_overflow_over_witness :
  exists top tail : list row,
    value_counts eleven_values = top ++ tail /\
    length top = 10 /\
    top_n_with_overflow eleven_values = top ++ [("other", sum_list tail.*2)] /\
    length (top_n_with_overflow eleven_values) = 11 /\
    NoDup (top ++ tail).*1 /\
    (forall v, v ∈ (top ++ tail).*1 <-> v ∈ dropna eleven_values) /\
    (forall v c, (v, c) ∈ top ++ tail -> c = occurrences v (dropna eleven_values)) /\
    (forall r r', r ∈ top -> r' ∈ tail -> r'.2 <= r.2) /\
    sum_list (top_n_with_overflow eleven_values).*2 = length (dropna eleven_values).
Proof. apply (top_n_with_overflow_over eleven_values). vm_compute. lia. Defined.

Example top_n_with_overflow_eleven :
  top_n_with_overflow eleven_values =
    [("b", 3); ("k", 2); ("a", 1); ("c", 1); ("d", 1); ("e", 1); ("f", 1);
     ("g", 1); ("h", 1); ("i", 1); ("other", 1)].
Proof. vm_compute. reflexivity. Qed.

(** C3: with at most ten distinct values the breakdown is the frequency
    table itself: one row per distinct value with its number of occurrences,
    every row labelled by a value of the input (none is synthetic); counting
    its rows again, each row standing for as many occurrences as its count,
    gives the same rows, and so does the overflow step alone. *)
Theorem top_n_with_overflow_within (col : list (option string)) :
  distinct (dropna col) <= top_n ->
  top_n_with_overflow col = value_counts col /\
  length (top_n_with_overflow col) = distinct (dropna col) /\
  NoDup (top_n_with_overflow col).*1 /\
  (forall v, v ∈ (top_n_with_overflow col).*1 <-> v ∈ dropna col) /\
  (forall v c, (v, c) ∈ top_n_with_overflow col -> c = occurrences v (dropna col)) /\
  top_n_with_overflow_rows (top_n_with_overflow col) = top_n_with_overflow col /\
  collapse_overflow top_n (top_n_with_overflow col) = top_n_with_overflow col.
Proof.
  intros Hle.
  destruct (value_counts_spec col) as (Hs & Hnd & Hlen & Hsum & Hel & Hocc).
  rewrite <- Hlen in Hle.
  assert (Heq : top_n_with_overflow col = value_counts col)
    by by apply collapse_overflow_within.
  unfold top_n_with_overflow_rows. rewrite Heq.
  rewrite value_counts_rows_fixed by done.
  rewrite collapse_overflow_within by done. done.
Qed.

Lemma top_n_with_overflow_within_witness :
  top_n_with_overflow three_values = value_counts three_values /\
  length (top_n_with_overflow three_values) = distinct (dropna three_values) /\
  NoDup (top_n_with_overflow three_values).*1 /\
  (forall v, v ∈ (top_n_with_overflow three_values).*1 <-> v ∈ dropna three_values) /\
  (forall v c, (v, c) ∈ top_n_with_overflow three_values ->
               c = occurrences v (dropna three_values)) /\
  top_n_with_overflow_rows (top_n_with_overflow three_values) =
    top_n_with_overflow three_values /\
  collapse_overflow top_n (top_n_with_overflow three_values) =
    top_n_with_overflow three_values.
Proof. apply (top_n_with_overflow_within three_values). vm_compute. lia. Defined.

Example top_n_with_overflow_three :
  top_n_with_overflow three_values = [("bob", 3); ("other", 2); ("alice", 1)].
Proof. vm_compute. reflexivity. Qed.

End BreakdownFacts.

(** ** The API client *)

Module SepexFacts.
Import Py Sepex.

Lemma unwrap_envelope_first_list (pre post : kwargs) (key : string) (a : list pyval) :
  Forall (fun kv : string * pyval => is_list kv.2 = false) pre ->
  unwrap_envelope (PDict (pre ++ (key, PList a) :: post)) = PList a.
Proof.
  intros Hpre. unfold unwrap_envelope.
  induction Hpre as [|[k v] pre Hv _ IH]; csimpl.
  - done.
  - rewrite decide_False by (csimpl in Hv; congruence).
    destruct (list_find _ _) as [[i w]|]; csimpl in *; [|done]. done.
Qed.

Lemma fetch_table_ok {R} http api endpoint (model_cls : kwargs -> option R) params data :
  http (request_for api endpoint) = Responded {| status_code := 200; body := Some data |} ->
  fetch_table http api endpoint model_cls params =
    ((Get (request_for api endpoint) :: trace (decode_table model_cls data)),
     outcome_of (decode_table model_cls data)).
Proof.
  intros H. unfold fetch_table, get, try_get, decode_table. fold (request_for api endpoint).
  cbn. rewrite H. cbn.
  destruct (iterate (unwrap_envelope data)) as [t [elems|e]]; cbn; [|done].
  destruct (mapM (construct model_cls) elems) as [t' [items|e]]; cbn; [|done].
  by rewrite !app_nil_r.
Qed.

Lemma construct_trace {R} (cls : kwargs -> option R) (item : pyval) :
  trace (construct cls item) = [].
Proof. destruct item; try done. cbn. by destruct (cls _). Qed.

Lemma mapM_construct_trace {R} (cls : kwargs -> option R) (elems : list pyval) :
  trace (mapM (construct cls) elems) = [].
Proof.
  induction elems as [|x elems IH]; [done|]. cbn.
  pose proof (construct_trace cls x) as Hx.
  destruct (construct cls x) as [t [r|e]]; cbn in *; subst; [|done].
  destruct (mapM (construct cls) elems) as [t' [rs|e]]; cbn in *; subst; done.
Qed.

Lemma mapM_construct_valid {R} (cls : kwargs -> option R) items rs :
  mapM cls items = Some rs ->
  mapM (construct cls) (PDict <$> items) = ([], Ok rs).
Proof.
  revert rs. induction items as [|kw items IH]; intros rs H.
  - by injection H as <-.
  - cbn in H. destruct (cls kw) as [r|] eqn:Hr; [|done]. cbn in H.
    destruct (mapM cls items) as [rs'|] eqn:Hrs; [|done]. injection H as <-.
    cbn. rewrite Hr. cbn.
    change (list_fmap _ _ PDict items) with (PDict <$> items).
    by rewrite (IH rs' eq_refl).
Qed.

(** C4: a 200 response whose body is the object with the single field "jobs"
    holding the array [a] is handled exactly as a 200 response whose body is
    the array [a] itself, and what both extract is the sequence of records
    built from the elements of [a], in order: the same request, the
    validated records of [a] when all validate, the failure of the first
    element that does not.  More generally, the array taken from an object
    is its first array-valued field. *)
Theorem fetch_table_envelope {R} (api : SepexAPI) (endpoint : string)
    (model_cls : kwargs -> option R) (params : option kwargs) (a : list pyval) :
  fetch_table (always 200 (Some (PDict [("jobs", PList a)]))) api endpoint model_cls params
    = fetch_table (always 200 (Some (PList a))) api endpoint model_cls params /\
  fetch_table (always 200 (Some (PDict [("jobs", PList a)]))) api endpoint model_cls params
    = ([Get (request_for api endpoint)],
       match outcome_of (mapM (construct model_cls) a) with
       | Ok items => Ok (Some items)
       | Raise e => Raise e
       end) /\
  (forall (items : list kwargs) (rs : list R),
     a = PDict <$> items ->
     mapM model_cls items = Some rs ->
     fetch_table (always 200 (Some (PDict [("jobs", PList a)]))) api endpoint model_cls params
       = ([Get (request_for api endpoint)], Ok (Some rs)) /\
     length rs = length items /\
     (forall (i : nat) (kw : kwargs), items !! i = Some kw -> model_cls kw = rs !! i)) /\
  (forall (pre post : kwargs) (key : string),
     Forall (fun kv : string * pyval => is_list kv.2 = false) pre ->
     fetch_table (always 200 (Some (PDict (pre ++ (key, PList a) :: post))))
                 api endpoint model_cls params
       = fetch_table (always 200 (Some (PList a))) api endpoint model_cls params).
Proof.
  assert (Hgen : forall (pre post : kwargs) (key : string),
     Forall (fun kv : string * pyval => is_list kv.2 = false) pre ->
     fetch_table (always 200 (Some (PDict (pre ++ (key, PList a) :: post))))
                 api endpoint model_cls params
       = fetch_table (always 200 (Some (PList a))) api endpoint model_cls params).
  { intros pre post key Hpre.
    rewrite !(fetch_table_ok _ _ _ _ _ _ eq_refl). unfold decode_table.
    by rewrite (unwrap_envelope_first_list pre post key a Hpre). }
  assert (Henv : fetch_table (always 200 (Some (PDict [("jobs", PList a)])))
                   api endpoint model_cls params
                 = fetch_table (always 200 (Some (PList a))) api endpoint model_cls params)
    by (apply (Hgen [] [] "jobs"); constructor).
  assert (Hbare : fetch_table (always 200 (Some (PList a))) api endpoint model_cls params
                  = ([Get (request_for api endpoint)],
                     match outcome_of (mapM (construct model_cls) a) with
                     | Ok items => Ok (Some items)
                     | Raise e => Raise e
                     end)).
  { rewrite (fetch_table_ok _ _ _ _ _ _ eq_refl). unfold decode_table.
    cbn [unwrap_envelope iterate]. cbn.
    pose proof (mapM_construct_trace model_cls a) as Ht.
    destruct (mapM (construct model_cls) a) as [t [items|e]]; cbn in *; by subst. }
  split_and!; [exact Henv|by rewrite Henv|..|exact Hgen].
  intros items rs -> Hrs. rewrite Henv, Hbare, (mapM_construct_valid _ _ _ Hrs).
  apply mapM_Some in Hrs. split_and!; [done|by apply Forall2_length in Hrs|].
  intros i kw Hi. by destruct (Forall2_lookup_l _ _ _ _ _ Hrs Hi) as (r & -> & Hr).
Qed.

Lemma fetch_table_envelope_witness :
  (fetch_table (always 200 (Some (PDict [("jobs", PList (PDict <$> [sample_process;
                                                                   sample_process]))])))
               (new_api "http://localhost:5050") "jobs" Process_validate None
     = ([Get (request_for (new_api "http://localhost:5050") "jobs")],
        Ok (Some (default [] (mapM Process_validate [sample_process; sample_process])))) /\
   length (default [] (mapM Process_validate [sample_process; sample_process])) = 2) /\
  fetch_table (always 200 (Some (PDict ([("total", PInt 1)] ++
                                        ("jobs", PList (PDict <$> [sample_process;
                                                                   sample_process]))
                                        :: [("links", PList [])]))))
              (new_api "http://localhost:5050") "jobs" Process_validate None
    = fetch_table (always 200 (Some (PList (PDict <$> [sample_process; sample_process]))))
                  (new_api "http://localhost:5050") "jobs" Process_validate None.
Proof.
  assert (Hm : mapM Process_validate [sample_process; sample_process] =
               Some (default [] (mapM Process_validate [sample_process; sample_process])))
    by reflexivity.
  destruct (fetch_table_envelope (new_api "http://localhost:5050") "jobs"
              Process_validate None (PDict <$> [sample_process; sample_process]))
    as (_ & _ & Hrecords & Hfirst).
  split.
  - destruct (Hrecords [sample_process; sample_process] _ eq_refl Hm) as (H & Hlen & _).
    split; [exact H|exact Hlen].
  - apply (Hfirst [("total", PInt 1)] [("links", PList [])] "jobs").
    repeat constructor.
Defined.

(** The records extracted from the envelope, computed: two processes in, two
    records out, in order; an element that does not validate fails the
    call. *)
Example fetch_table_envelope_records :
  outcome_of (fetch_table (always 200 (Some (PDict [("jobs", PList [PDict sample_process])])))
                (new_api "http://localhost:5050") "jobs" Process_validate None)
    = Ok (Some [ {| version := "1.0"; id := "p1"; title := "First"; description := "d";
                    jobControlOptions := ["async-execute"]; outputTransmission := PNone |} ]) /\
  outcome_of (fetch_table (always 200 (Some (PDict [("jobs", PList [PDict [("id", PStr "p1")]])])))
                (new_api "http://localhost:5050") "jobs" Process_validate None)
    = Raise ValidationError.
Proof. split; reflexivity. Qed.

(** When another array comes first in the object, that one is taken. *)
Example unwrap_envelope_links_first (a : list pyval) :
  unwrap_envelope (PDict [("links", PList []); ("jobs", PList a)]) = PList [].
Proof. reflexivity. Qed.

Lemma decode_table_trace {R} (cls : kwargs -> option R) (data : pyval) :
  trace (decode_table cls data) = [].
Proof.
  unfold decode_table.
  assert (Hit : trace (iterate (unwrap_envelope data)) = [])
    by by destruct (unwrap_envelope data).
  destruct (iterate (unwrap_envelope data)) as [t [elems|e]]; cbn in *; subst; [|done].
  pose proof (mapM_construct_trace cls elems) as Hm.
  destruct (mapM (construct cls) elems) as [t' [items|e]]; cbn in *; subst; done.
Qed.

(** What [fetch_table] does after a response with a status other than 200. *)
Lemma fetch_table_not_200 {R} http api endpoint (model_cls : kwargs -> option R)
    params status data :
  http (request_for api endpoint) = Responded {| status_code := status; body := data |} ->
  status <> 200%Z ->
  fetch_table http api endpoint model_cls params =
    ([Get (request_for api endpoint);
      Print ("Failed to fetch data from " +:+ endpoint +:+ ": " +:+ pretty status)],
     Ok None).
Proof.
  intros H Hst. unfold fetch_table, get, try_get. fold (request_for api endpoint).
  cbn. rewrite H. cbn. by rewrite decide_False.
Qed.

(** C7 (what the code does): whatever query parameters the caller passes,
    [fetch_table] sends one GET for the bare URL and attaches none of them. *)
Theorem fetch_table_drops_params {R} (http : request -> outcome) (api : SepexAPI)
    (endpoint : string) (model_cls : kwargs -> option R) (params : option kwargs) :
  requests (trace (fetch_table http api endpoint model_cls params)) =
    [ {| url := base_url api +:+ "/" +:+ endpoint; params := None |} ] /\
  fetch_table http api endpoint model_cls params =
    fetch_table http api endpoint model_cls None.
Proof.
  split; [|done].
  fold (request_for api endpoint).
  destruct (http (request_for api endpoint)) as [msg|[status data]] eqn:H.
  - unfold fetch_table, get, try_get. fold (request_for api endpoint).
    cbn. by rewrite H.
  - destruct (decide (status = 200%Z)) as [->|Hst].
    + destruct data as [data|].
      * rewrite (fetch_table_ok _ _ _ _ _ _ H). cbn. by rewrite decode_table_trace.
      * unfold fetch_table, get, try_get. fold (request_for api endpoint).
        cbn. by rewrite H.
    + by rewrite (fetch_table_not_200 _ _ _ _ _ _ _ H Hst).
Qed.

(** The overview call of the dashboard, [fetch_table("jobs", Job,
    params={"limit": 500, "offset": 0})], asks for the bare jobs URL. *)
Example fetch_table_jobs_request {R} (model_cls : kwargs -> option R) :
  requests (trace (fetch_table (always 200 (Some (PDict [("jobs", PList [])])))
                     (new_api "http://localhost:5050/") "jobs" model_cls
                     (Some [("limit", PInt 500); ("offset", PInt 0)]))) =
    [ {| url := "http://localhost:5050/jobs"; params := None |} ].
Proof. reflexivity. Qed.

(** C8 (as the code has it): on a status other than 200 the fetch sends its
    single GET, prints the endpoint and the status, and returns [None]; the
    value returned is the same for every such status, it differs from the
    empty table of a 200 response with an empty array and from the exception
    of a record that does not validate. *)
Theorem fetch_table_failure {R} (http : request -> outcome) (api : SepexAPI)
    (endpoint : string) (model_cls : kwargs -> option R) (params : option kwargs)
    (status : Z) (data : option pyval) :
  http (request_for api endpoint) = Responded {| status_code := status; body := data |} ->
  status <> 200%Z ->
  fetch_table http api endpoint model_cls params =
    ([Get (request_for api endpoint);
      Print ("Failed to fetch data from " +:+ endpoint +:+ ": " +:+ pretty status)],
     Ok None) /\
  outcome_of (fetch_table http api endpoint model_cls params) <>
    outcome_of (fetch_table (always 200 (Some (PList []))) api endpoint model_cls params) /\
  outcome_of (fetch_table http api endpoint model_cls params) <> Raise ValidationError.
Proof.
  intros H Hst. rewrite (fetch_table_not_200 _ _ _ _ _ _ _ H Hst).
  rewrite (fetch_table_ok (always 200 (Some (PList []))) _ _ _ _ _ eq_refl).
  split_and!; done.
Qed.

Lemma fetch_table_failure_witness :
  fetch_table (always 404 None) (new_api "http://localhost:5050") "jobs"
              (fun _ : kwargs => Some tt) None =
    ([Get (request_for (new_api "http://localhost:5050") "jobs");
      Print ("Failed to fetch data from " +:+ "jobs" +:+ ": " +:+ pretty 404%Z)],
     Ok None) /\
  outcome_of (fetch_table (always 404 None) (new_api "http://localhost:5050") "jobs"
                          (fun _ : kwargs => Some tt) None) <>
    outcome_of (fetch_table (always 200 (Some (PList []))) (new_api "http://localhost:5050")
                            "jobs" (fun _ : kwargs => Some tt) None) /\
  outcome_of (fetch_table (always 404 None) (new_api "http://localhost:5050") "jobs"
                          (fun _ : kwargs => Some tt) None) <> Raise ValidationError.
Proof.
  apply (fetch_table_failure (always 404 None) (new_api "http://localhost:5050") "jobs"
           (fun _ : kwargs => Some tt) None 404 None); [reflexivity|lia].
Defined.

(** C8 as stated fails: no function of the returned value recovers the
    status, since 404 and 500 give the same value. *)
Lemma fetch_table_status_not_returned :
  ~ exists status_of : result (option (list unit)) -> Z,
      forall status : Z, (status < 200 \/ 300 <= status)%Z ->
        status_of (outcome_of (fetch_table (always status None)
                                 (new_api "http://localhost:5050") "jobs"
                                 (fun _ : kwargs => Some tt) None)) = status.
Proof.
  intros [status_of H].
  pose proof (H 404%Z ltac:(lia)) as H404.
  pose proof (H 500%Z ltac:(lia)) as H500.
  rewrite (fetch_table_not_200 _ _ _ _ _ 404 None eq_refl) in H404 by lia.
  rewrite (fetch_table_not_200 _ _ _ _ _ 500 None eq_refl) in H500 by lia.
  cbn in H404, H500. congruence.
Qed.

(** *** [fetch_processes_dict] *)

Lemma Process_validate_id kw r :
  Process_validate kw = Some r -> lookup_key "id" kw = Some (PStr (id r)).
Proof.
  unfold Process_validate. intros H.
  destruct (lookup_key "version" kw ≫= as_str) as [v|]; [|done]. cbn in H.
  destruct (lookup_key "id" kw) as [[]|]; try done. cbn in H.
  destruct (lookup_key "title" kw ≫= as_str); [|done]. cbn in H.
  destruct (lookup_key "description" kw ≫= as_str); [|done]. cbn in H.
  destruct (lookup_key "jobControlOptions" kw ≫= as_str_list); [|done]. cbn in H.
  destruct (lookup_key "outputTransmission" kw); [|done]. cbn in H.
  by injection H as <-.
Qed.

Lemma add_process_dict acc (kw : kwargs) :
  add_process acc (PDict kw) =
    if decide ("id" ∈ kw.*1)
    then match Process_validate kw with
         | Some r => ([], Ok (<[id r := r]> acc))
         | None => ([], Raise ValidationError)
         end
    else ([], Ok acc).
Proof.
  unfold add_process, contains_id, construct.
  case_decide.
  - rewrite bool_decide_eq_true_2 by done. cbn. by destruct (Process_validate kw).
  - by rewrite bool_decide_eq_false_2.
Qed.

Lemma collect_processes_valid acc (entries : list kwargs) :
  Forall (fun kw => is_Some (Process_validate kw)) (with_id entries) ->
  collect_processes acc (PDict <$> entries) =
    ([], Ok (keyed acc (omap Process_validate (with_id entries)))).
Proof.
  unfold with_id, keyed.
  revert acc. induction entries as [|kw entries IH]; intros acc Hall; [done|].
  cbn [fmap list_fmap collect_processes]. rewrite add_process_dict.
  destruct (decide ("id" ∈ kw.*1)) as [Hid|Hid].
  - rewrite filter_cons_True in Hall |- * by done.
    apply Forall_cons in Hall as [[r Hr] Hall]. rewrite Hr.
    cbn [omap list_omap]. rewrite Hr. cbn.
    change (list_fmap _ _ PDict entries) with (PDict <$> entries).
    by rewrite IH.
  - rewrite filter_cons_False in Hall |- * by done. cbn.
    change (list_fmap _ _ PDict entries) with (PDict <$> entries).
    by rewrite IH.
Qed.

Lemma keyed_lookup acc rs k r :
  keyed acc rs !! k = Some r ->
  (r ∈ rs /\ id r = k) \/ acc !! k = Some r.
Proof.
  unfold keyed. revert acc. induction rs as [|r' rs IH]; intros acc H; cbn in *.
  - by right.
  - destruct (IH _ H) as [[Hin Hid]|Hacc].
    + left. split; [|done]. apply elem_of_cons. by right.
    + destruct (decide (id r' = k)) as [<-|Hne].
      * rewrite lookup_insert_eq in Hacc. injection Hacc as ->.
        left. split; [|done]. apply elem_of_cons. by left.
      * rewrite lookup_insert_ne in Hacc by done. by right.
Qed.

Lemma keyed_last acc rs r post :
  Forall (fun r' => id r' <> id r) post ->
  keyed acc (rs ++ r :: post) !! id r = Some r.
Proof.
  unfold keyed. intros Hpost. rewrite foldl_app. cbn.
  generalize (foldl (fun d r0 => <[id r0 := r0]> d) acc rs). intros d.
  assert (Hd : <[id r := r]> d !! id r = Some r) by apply lookup_insert_eq.
  revert Hd. generalize (<[id r := r]> d). clear d.
  induction Hpost as [|r' post Hne _ IH]; intros d Hd; cbn; [done|].
  apply IH. by rewrite lookup_insert_ne.
Qed.

(** C10 (as the code has it): [fetch_processes_dict] has no path that
    returns [None].  On a status other than 200 it prints the status and
    returns the empty dict, and the title map built from it is empty.  On a
    200 response whose body is an object with an array of objects under
    "processes", if every entry that has an "id" key validates as a
    [Process], the result is a dict whose entries are exactly the validated
    entries that have an "id" key, each under its id (the last one when an
    id repeats); entries without "id" are neither validated nor kept. *)
Theorem fetch_processes_dict_result (http : request -> outcome) (api : SepexAPI)
    (endpoint : string) :
  (forall (status : Z) (data : option pyval),
     http (request_for api endpoint) = Responded {| status_code := status; body := data |} ->
     status <> 200%Z ->
     fetch_processes_dict http api endpoint =
       ([Get (request_for api endpoint);
         Print ("Failed to fetch processes: " +:+ pretty status)], Ok ∅)) /\
  (forall (status : Z) (data : option pyval),
     http (request_for api "processes") =
       Responded {| status_code := status; body := data |} ->
     status <> 200%Z ->
     Helpers.get_process_maps http api =
       ([Get (request_for api "processes");
         Print ("Failed to fetch processes: " +:+ pretty status)], Ok (∅, ∅))) /\
  (forall (kvs : kwargs) (entries : list kwargs),
     http (request_for api endpoint) =
       Responded {| status_code := 200; body := Some (PDict kvs) |} ->
     default (PList []) (lookup_key "processes" kvs) = PList (PDict <$> entries) ->
     Forall (fun kw => is_Some (Process_validate kw)) (with_id entries) ->
     exists d : gmap string Process,
       fetch_processes_dict http api endpoint = ([Get (request_for api endpoint)], Ok d) /\
       (forall k r, d !! k = Some r ->
          id r = k /\
          exists kw, kw ∈ entries /\ "id" ∈ kw.*1 /\ Process_validate kw = Some r /\
                     lookup_key "id" kw = Some (PStr k)) /\
       (forall kw r, kw ∈ entries -> "id" ∈ kw.*1 -> Process_validate kw = Some r ->
          is_Some (d !! id r)) /\
       (forall pre kw post r,
          entries = pre ++ kw :: post -> "id" ∈ kw.*1 -> Process_validate kw = Some r ->
          Forall (fun kw' => forall r', Process_validate kw' = Some r' -> id r' <> id r) post ->
          d !! id r = Some r)).
Proof.
  assert (Hfail : forall ep (status : Z) (data : option pyval),
     http (request_for api ep) = Responded {| status_code := status; body := data |} ->
     status <> 200%Z ->
     fetch_processes_dict http api ep =
       ([Get (request_for api ep);
         Print ("Failed to fetch processes: " +:+ pretty status)], Ok ∅)).
  { intros ep status data H Hst.
    unfold fetch_processes_dict, get, try_get. fold (request_for api ep).
    cbn. rewrite H. cbn. by rewrite decide_False. }
  split_and!.
  - apply Hfail.
  - intros status data H Hst. unfold Helpers.get_process_maps.
    rewrite (Hfail _ _ _ H Hst). cbn. by rewrite fmap_empty.
  - intros kvs entries H Hps Hall.
    exists (keyed ∅ (omap Process_validate (with_id entries))).
    assert (Hlast : forall pre kw post r,
      entries = pre ++ kw :: post -> "id" ∈ kw.*1 -> Process_validate kw = Some r ->
      Forall (fun kw' => forall r', Process_validate kw' = Some r' -> id r' <> id r) post ->
      keyed ∅ (omap Process_validate (with_id entries)) !! id r = Some r).
    { intros pre kw post r -> Hid Hr Hpost.
      unfold with_id. rewrite filter_app, filter_cons_True by done.
      rewrite omap_app. cbn. rewrite Hr. apply keyed_last.
      apply Forall_forall. intros r' Hr'.
      apply list_elem_of_omap in Hr' as (kw' & Hkw' & Hv).
      apply list_elem_of_filter in Hkw' as [_ Hkw'].
      rewrite Forall_forall in Hpost. by apply (Hpost kw'). }
    split_and!.
    + unfold fetch_processes_dict, get, try_get. fold (request_for api endpoint).
      cbn. rewrite H. cbn. rewrite Hps. cbn.
      rewrite (collect_processes_valid ∅ entries Hall). done.
    + intros k r Hd. apply keyed_lookup in Hd as [[Hin Hid]|Hd]; [|by rewrite lookup_empty in Hd].
      apply list_elem_of_omap in Hin as (kw & Hkw & Hv).
      apply list_elem_of_filter in Hkw as [Hidkw Hkw].
      split; [done|]. exists kw. split_and!; try done.
      rewrite <- Hid. by apply Process_validate_id.
    + intros kw r Hkw Hid Hr.
      assert (Hin : r ∈ omap Process_validate (with_id entries)).
      { apply list_elem_of_omap. exists kw. split; [|done].
        apply list_elem_of_filter. done. }
      clear -Hin. unfold keyed. generalize (∅ : gmap string Process).
      induction (omap Process_validate (with_id entries)) as [|r' rs IH]; intros d.
      * by apply elem_of_nil in Hin.
      * cbn. apply elem_of_cons in Hin as [<-|Hin]; [|by apply IH].
        clear IH. assert (Hd : is_Some (<[id r := r]> d !! id r))
          by (rewrite lookup_insert_eq; eauto).
        revert Hd. generalize (<[id r := r]> d). clear d.
        induction rs as [|r'' rs IH]; intros d Hd; cbn; [done|].
        apply IH. destruct (decide (id r'' = id r)) as [->|Hne].
        -- rewrite lookup_insert_eq. eauto.
        -- by rewrite lookup_insert_ne.
    + exact Hlast.
Qed.

Lemma fetch_processes_dict_result_witness :
  fetch_processes_dict (always 503 None) (new_api "http://localhost:5050") "processes" =
    ([Get (request_for (new_api "http://localhost:5050") "processes");
      Print ("Failed to fetch processes: " +:+ pretty 503%Z)], Ok ∅) /\
  exists d : gmap string Process,
    fetch_processes_dict (always 200 (Some sample_listing))
                         (new_api "http://localhost:5050") "processes" =
      ([Get (request_for (new_api "http://localhost:5050") "processes")], Ok d) /\
    is_Some (d !! "p1").
Proof.
  split.
  - apply (proj1 (fetch_processes_dict_result (always 503 None)
                    (new_api "http://localhost:5050") "processes") 503%Z None);
      [reflexivity|lia].
  - destruct (proj2 (proj2 (fetch_processes_dict_result (always 200 (Some sample_listing))
                              (new_api "http://localhost:5050") "processes"))
                _ [sample_process; [("title", PStr "no id")]] eq_refl eq_refl)
      as (d & Hd & _ & Hin & _).
    + unfold with_id.
      rewrite filter_cons_True by (by apply (bool_decide_eq_true_1 _)).
      rewrite filter_cons_False by (by apply (bool_decide_eq_false_1 _)).
      repeat constructor. vm_compute. eauto.
    + exists d. split; [exact Hd|].
      refine (Hin sample_process _ _ _ eq_refl);
        [apply elem_of_cons; by left|by apply (bool_decide_eq_true_1 _)].
Defined.

(** C10 as stated fails: a 200 response with an entry that has an "id" but
    is not a complete [Process] makes the call raise instead of returning a
    dict. *)
Lemma fetch_processes_dict_invalid_entry :
  fetch_processes_dict
    (always 200 (Some (PDict [("processes", PList [PDict [("id", PStr "p1")]])])))
    (new_api "http://localhost:5050") "processes" =
    ([Get {| url := "http://localhost:5050/processes"; params := None |}],
     Raise ValidationError).
Proof. reflexivity. Qed.

(** A transport failure is not caught either. *)
Example fetch_processes_dict_unreachable :
  fetch_processes_dict (fun _ => Raised "connection refused")
    (new_api "http://localhost:5050") "processes" =
    ([Get {| url := "http://localhost:5050/processes"; params := None |}],
     Raise (RequestException "connection refused")).
Proof. reflexivity. Qed.

End SepexFacts.

(** ** The jobs overview *)

Module HelpersFacts.
Import Py Sepex Helpers.

Lemma foldr_min_spec (t : Z) (ts : list Z) :
  foldr Z.min t ts ∈ t :: ts /\ Forall (fun x => (foldr Z.min t ts <= x)%Z) (t :: ts).
Proof.
  induction ts as [|u ts [IHin IHle]]; csimpl.
  - split; [apply elem_of_cons; by left|]. constructor; [lia|constructor].
  - apply Forall_cons in IHle as [Ht Hts]. split.
    + destruct (Z.min_spec u (foldr Z.min t ts)) as [[_ ->]|[_ ->]].
      * apply elem_of_cons; right. apply elem_of_cons; by left.
      * apply elem_of_cons in IHin as [->|Hin]; [apply elem_of_cons; by left|].
        apply elem_of_cons; right. apply elem_of_cons; by right.
    + constructor; [lia|]. constructor; [lia|].
      eapply Forall_impl; [exact Hts|]. csimpl. intros x Hx. lia.
Qed.

Lemma foldr_max_spec (t : Z) (ts : list Z) :
  foldr Z.max t ts ∈ t :: ts /\ Forall (fun x => (x <= foldr Z.max t ts)%Z) (t :: ts).
Proof.
  induction ts as [|u ts [IHin IHle]]; csimpl.
  - split; [apply elem_of_cons; by left|]. constructor; [lia|constructor].
  - apply Forall_cons in IHle as [Ht Hts]. split.
    + destruct (Z.max_spec u (foldr Z.max t ts)) as [[_ ->]|[_ ->]].
      * apply elem_of_cons in IHin as [->|Hin]; [apply elem_of_cons; by left|].
        apply elem_of_cons; right. apply elem_of_cons; by right.
      * apply elem_of_cons; right. apply elem_of_cons; by left.
    + constructor; [lia|]. constructor; [lia|].
      eapply Forall_impl; [exact Hts|]. csimpl. intros x Hx. lia.
Qed.

Lemma timestamped_iff jobs : timestamped jobs = true <-> timestamps jobs <> [].
Proof.
  unfold timestamped, timestamps, has_column, column, Breakdown.dropna.
  induction jobs as [|j jobs IH]; csimpl; [done|].
  destruct (updated j) as [| |t]; csimpl.
  - rewrite <- IH. done.
  - rewrite <- IH. split.
    + intros Hn. apply andb_true_iff. split; [|done].
      apply negb_true_iff in Hn. destruct (existsb _ jobs) eqn:He; [done|].
      exfalso. clear IH. induction jobs as [|j' jobs IH']; csimpl in *; [done|].
      apply orb_false_iff in He as [Hp He].
      destruct (updated j'); csimpl in *; try done. by apply IH'.
    + intros [_ Hn]%andb_true_iff. done.
  - done.
Qed.

(** The span of a job list with at least one timestamp is the distance from
    its earliest to its latest timestamp. *)
Lemma span_of_spec jobs :
  timestamps jobs <> [] ->
  exists earliest latest : Z,
    span_of jobs = Some (latest - earliest)%Z /\
    earliest ∈ timestamps jobs /\ latest ∈ timestamps jobs /\
    Forall (fun t => earliest <= t <= latest)%Z (timestamps jobs).
Proof.
  unfold span_of, series_max, series_min, timestamps.
  destruct (Breakdown.dropna (column updated jobs)) as [|t ts]; [done|]. intros _.
  destruct (foldr_min_spec t ts) as [Hmin Hle].
  destruct (foldr_max_spec t ts) as [Hmax Hge].
  exists (foldr Z.min t ts), (foldr Z.max t ts). split_and!; try done.
  apply Forall_forall. intros x Hx.
  rewrite Forall_forall in Hle, Hge. split; [by apply Hle|by apply Hge].
Qed.

Lemma select_bucket_spec (span : Z) :
  ((Timedelta_days 7 <= span)%Z -> select_bucket (Some span) = B1d) /\
  ((Timedelta_days 2 <= span < Timedelta_days 7)%Z -> select_bucket (Some span) = B12h) /\
  ((Timedelta_hours 6 <= span < Timedelta_days 2)%Z -> select_bucket (Some span) = B1h) /\
  ((span < Timedelta_hours 6)%Z -> select_bucket (Some span) = B15min) /\
  (span = Timedelta_hours 6 -> select_bucket (Some span) = B1h).
Proof.
  unfold select_bucket, span_ge, Timedelta_days, Timedelta_hours, nanoseconds_per_second.
  split_and!; intros H; repeat case_bool_decide; try done; lia.
Qed.

(** C2: for a non-empty job list in which every job has a timestamp, the
    bucket is chosen from the span between the earliest and the latest
    timestamp: at least 7 days gives one-day buckets, at least 2 days
    12-hour buckets, at least 6 hours one-hour buckets, less than 6 hours
    15-minute buckets; a span of exactly 6 hours gives one-hour buckets. *)
Theorem bucket_of_span (jobs : list job) :
  jobs <> [] ->
  Forall (fun j => is_Some (cell (updated j))) jobs ->
  exists earliest latest : Z,
    earliest ∈ timestamps jobs /\ latest ∈ timestamps jobs /\
    Forall (fun t => earliest <= t <= latest)%Z (timestamps jobs) /\
    let span := (latest - earliest)%Z in
    ((Timedelta_days 7 <= span)%Z ->
       bucket_of jobs = Some B1d /\ bucket_width B1d = Timedelta_days 1) /\
    ((Timedelta_days 2 <= span < Timedelta_days 7)%Z ->
       bucket_of jobs = Some B12h /\ bucket_width B12h = Timedelta_hours 12) /\
    ((Timedelta_hours 6 <= span < Timedelta_days 2)%Z ->
       bucket_of jobs = Some B1h /\ bucket_width B1h = Timedelta_hours 1) /\
    ((span < Timedelta_hours 6)%Z ->
       bucket_of jobs = Some B15min /\ bucket_width B15min = Timedelta_minutes 15) /\
    (span = Timedelta_hours 6 -> bucket_of jobs = Some B1h).
Proof.
  intros Hne Hall.
  assert (Hts : timestamps jobs <> []).
  { destruct jobs as [|j jobs]; [done|]. apply Forall_cons in Hall as [[t Ht] _].
    unfold timestamps, column, Breakdown.dropna. csimpl. by rewrite Ht. }
  destruct (span_of_spec jobs Hts) as (earliest & latest & Hspan & Hmin & Hmax & Hbetween).
  exists earliest, latest. split_and!; try done.
  apply timestamped_iff in Hts. unfold bucket_of. rewrite Hts, Hspan.
  destruct (select_bucket_spec (latest - earliest)) as (H1 & H2 & H3 & H4 & H5).
  csimpl. split_and!; intros H; [rewrite H1|rewrite H2|rewrite H3|rewrite H4|rewrite H5]; done.
Qed.

Lemma bucket_of_span_witness :
  exists earliest latest : Z,
    earliest ∈ timestamps six_hour_jobs /\ latest ∈ timestamps six_hour_jobs /\
    Forall (fun t => earliest <= t <= latest)%Z (timestamps six_hour_jobs) /\
    let span := (latest - earliest)%Z in
    ((Timedelta_days 7 <= span)%Z ->
       bucket_of six_hour_jobs = Some B1d /\ bucket_width B1d = Timedelta_days 1) /\
    ((Timedelta_days 2 <= span < Timedelta_days 7)%Z ->
       bucket_of six_hour_jobs = Some B12h /\ bucket_width B12h = Timedelta_hours 12) /\
    ((Timedelta_hours 6 <= span < Timedelta_days 2)%Z ->
       bucket_of six_hour_jobs = Some B1h /\ bucket_width B1h = Timedelta_hours 1) /\
    ((span < Timedelta_hours 6)%Z ->
       bucket_of six_hour_jobs = Some B15min /\
       bucket_width B15min = Timedelta_minutes 15) /\
    (span = Timedelta_hours 6 -> bucket_of six_hour_jobs = Some B1h).
Proof.
  apply (bucket_of_span six_hour_jobs); [discriminate|].
  repeat constructor; vm_compute; eauto.
Defined.

(** Exactly six hours between the first and the last job: one-hour buckets;
    one nanosecond less: 15-minute buckets. *)
Example bucket_of_six_hours : bucket_of six_hour_jobs = Some B1h.
Proof. reflexivity. Qed.

Example bucket_of_just_under_six_hours :
  bucket_of [job_at 1000; job_at (1000 + Timedelta_hours 6 - 1)] = Some B15min.
Proof. reflexivity. Qed.

Example bucket_of_two_days_and_week :
  bucket_of [job_at 0; job_at (Timedelta_days 2)] = Some B12h /\
  bucket_of [job_at (Timedelta_days 7); job_at 0] = Some B1d.
Proof. split; reflexivity. Qed.

Lemma has_column_false {A} (key : job -> field A) jobs :
  has_column key jobs = false -> Forall (fun j => cell (key j) = None) jobs.
Proof.
  unfold has_column. induction jobs as [|j jobs IH]; csimpl; intros H; [constructor|].
  apply orb_false_iff in H as [Hj H]. constructor; [|by apply IH].
  by destruct (key j).
Qed.

(** A status count is the number of jobs whose status is that string, whether
    or not the table has a status column. *)
Lemma count_status_filter s jobs :
  count_status s jobs = length (filter (fun j => cell (status j) = Some s) jobs).
Proof.
  unfold count_status, column.
  destruct (has_column status jobs) eqn:Hcol.
  - clear Hcol. induction jobs as [|j jobs IH]; csimpl; [done|].
    rewrite !filter_cons. case_decide; csimpl; by rewrite IH.
  - apply has_column_false in Hcol.
    induction Hcol as [|j jobs Hj _ IH]; csimpl; [done|].
    rewrite filter_cons_False; [done|]. by rewrite Hj.
Qed.

(** C6: for the three jobs with statuses successful, failed, successful the
    summary has total 3, successful 2, failed 1, running 0; for every job
    list the total is the length of the list and each status count is the
    number of jobs whose status is exactly that string. *)
Theorem compute_kpis_counts :
  (let k := compute_kpis [status_only "successful"; status_only "failed";
                          status_only "successful"] in
   total_jobs k = 3 /\ successful k = 2 /\ failed k = 1 /\ running k = 0) /\
  (forall jobs : list job,
     let k := compute_kpis jobs in
     total_jobs k = length jobs /\
     successful k = length (filter (fun j => cell (status j) = Some "successful") jobs) /\
     failed k = length (filter (fun j => cell (status j) = Some "failed") jobs) /\
     running k = length (filter (fun j => cell (status j) = Some "running") jobs)).
Proof.
  split; [by vm_compute|].
  intros jobs. csimpl. by rewrite !count_status_filter.
Qed.

(** The three jobs as rendered when the processes listing answers 404: the
    metrics, then the messages of the chart row (the records have no
    timestamp). *)
Example render_jobs_overview_three_statuses :
  render_jobs_overview (always 404 None)
    [status_only "successful"; status_only "failed"; status_only "successful"]
    (new_api "http://localhost:5050") =
    ([Get {| url := "http://localhost:5050/processes"; params := None |};
      Print "Failed to fetch processes: 404";
      StMetric "Total jobs" "3";
      StMetric "Unique processes" "0";
      StMetric "Successful" "2";
      StMetric "Last seen (UTC)" "N/A";
      StInfo "No timestamped jobs to chart.";
      StInfo "No processID data."], Ok tt).
Proof. vm_compute. reflexivity. Qed.

(** The process pie counts every job once, whatever the title map; the
    submitter chart counts the jobs that have a submitter. *)
Lemma process_breakdown_total (process_map : gmap string string) (jobs : list job) :
  sum_list (Breakdown.top_n_with_overflow (Some <$> process_titles process_map jobs)).*2
    = length jobs.
Proof.
  unfold Breakdown.top_n_with_overflow.
  rewrite BreakdownFacts.collapse_overflow_sum.
  destruct (BreakdownFacts.value_counts_spec (Some <$> process_titles process_map jobs))
    as (_ & _ & _ & -> & _).
  unfold Breakdown.dropna, process_titles.
  induction jobs as [|j jobs IH]; csimpl; [done|]. by rewrite IH.
Qed.

Lemma submitter_breakdown_total (jobs : list job) :
  sum_list (Breakdown.top_n_with_overflow (column submitter jobs)).*2
    = length (filter (fun j => is_Some (cell (submitter j))) jobs).
Proof.
  unfold Breakdown.top_n_with_overflow.
  rewrite BreakdownFacts.collapse_overflow_sum.
  destruct (BreakdownFacts.value_counts_spec (column submitter jobs))
    as (_ & _ & _ & -> & _).
  unfold Breakdown.dropna, column.
  induction jobs as [|j jobs IH]; csimpl; [done|].
  destruct (cell (submitter j)) as [v|] eqn:Hc; csimpl.
  - rewrite filter_cons_True by (rewrite Hc; eauto). csimpl. by rewrite IH.
  - rewrite filter_cons_False by (rewrite Hc; by intros [? ?]). done.
Qed.

Lemma df_empty_no_keys (n : nat) : df_empty (replicate n no_keys) = true.
Proof.
  unfold df_empty.
  assert (H : forall {A} (key : job -> field A),
             key no_keys = Absent -> has_column key (replicate n no_keys) = false).
  { intros A key Hkey. unfold has_column.
    induction n as [|n IH]; csimpl; [done|]. by rewrite Hkey, IH. }
  rewrite !H by done. apply orb_true_r.
Qed.

(** C9: for the empty job list the overview shows the no-data message and
    returns normally; nothing else happens: no request, no metric, no chart,
    no exception.  The same holds for any number of records without keys. *)
Theorem render_jobs_overview_empty (http : request -> outcome) (api : SepexAPI) :
  render_jobs_overview http [] api =
    ([StInfo "No jobs available for overview charts."], Ok tt) /\
  requests (trace (render_jobs_overview http [] api)) = [] /\
  (forall n : nat,
     render_jobs_overview http (replicate n no_keys) api =
       ([StInfo "No jobs available for overview charts."], Ok tt)).
Proof.
  split_and!; [reflexivity|reflexivity|].
  intros n. unfold render_jobs_overview. by rewrite df_empty_no_keys.
Qed.

End HelpersFacts.

(** ** The metadata branch of the dashboard *)

Module HomeFacts.
Import Py Sepex Helpers Home SepexFacts.

Section Metadata.
Variable http : request -> outcome.
Variable JobMetadataResponse : kwargs -> option pyval.

(** The loop over two URLs when the first attempt fails. *)
Lemma try_urls_fallback (u1 u2 : string) :
  let r1 := {| url := u1; params := None |} in
  let r2 := {| url := u2; params := None |} in
  failed_attempt (http r1) ->
  requests (trace (try_urls http JobMetadataResponse [u1; u2] meta_init)) = [r1; r2] /\
  (forall kw : kwargs,
     http r2 = Responded {| status_code := 200; body := Some (PDict kw) |} ->
     exists s, try_urls http JobMetadataResponse [u1; u2] meta_init = ([Get r1; Get r2], Ok s) /\
               meta_data s = Some (default (PDict kw) (JobMetadataResponse kw))) /\
  (failed_attempt (http r2) ->
     exists s, try_urls http JobMetadataResponse [u1; u2] meta_init = ([Get r1; Get r2], Ok s) /\
               meta_data s = None /\
               metadata_failure s = failure_report (http r1) (http r2)).
Proof.
  intros r1 r2 Hfail. cbn [try_urls]. unfold try_get. fold r1 r2.
  destruct (http r1) as [m1|[c1 b1]] eqn:H1; destruct (http r2) as [m2|[c2 b2]] eqn:H2;
    cbn in *.
  - split_and!; [done|done|]. intros _. eexists; split_and!; [done|done|].
    by destruct m1, m2.
  - destruct (decide (c2 = 200%Z)) as [->|Hc2].
    + split_and!.
      * by destruct b2 as [[]|].
      * intros kw [= ->]. eexists; split; done.
      * done.
    + split_and!; [done|by intros kw [= -> _]|].
      intros _. eexists; split_and!; [done|done|]. by destruct m1.
  - rewrite decide_False by done. cbn. split_and!; [done|done|].
    intros _. eexists; split_and!; [done|done|]. by destruct m2.
  - rewrite decide_False by done. cbn.
    destruct (decide (c2 = 200%Z)) as [->|Hc2].
    + split_and!.
      * by destruct b2 as [[]|].
      * intros kw [= ->]. eexists; split; done.
      * done.
    + split_and!; [done|by intros kw [= -> _]|].
      intros _. eexists; split_and!; done.
Qed.

Lemma requests_app (t t' : list event) : requests (t ++ t') = requests t ++ requests t'.
Proof. apply omap_app. Qed.

(** C5 (as the code has it): when the first attempt fails (exception or
    status other than 200), the second URL is requested, once, and nothing
    else is; if it answers 200 with a JSON object the panel shows the
    metadata (the validated dump, or the raw object when validation fails);
    if it fails too, the panel shows one error: the message of the most
    recent exception when that message is not empty, otherwise the most
    recent status, otherwise "unknown error". *)
Theorem show_metadata_fallback (api : SepexAPI) (job_id : string) :
  failed_attempt (http (primary_request api job_id)) ->
  requests (trace (show_metadata http JobMetadataResponse api job_id)) =
    [primary_request api job_id; secondary_request api job_id] /\
  (forall kw : kwargs,
     http (secondary_request api job_id) =
       Responded {| status_code := 200; body := Some (PDict kw) |} ->
     show_metadata http JobMetadataResponse api job_id =
       ([Get (primary_request api job_id); Get (secondary_request api job_id);
         StJson (default (PDict kw) (JobMetadataResponse kw))], Ok tt)) /\
  (failed_attempt (http (secondary_request api job_id)) ->
     show_metadata http JobMetadataResponse api job_id =
       ([Get (primary_request api job_id); Get (secondary_request api job_id);
         StError (failure_report (http (primary_request api job_id))
                                 (http (secondary_request api job_id)))], Ok tt)).
Proof.
  intros Hfail. unfold show_metadata, metadata_urls.
  destruct (try_urls_fallback (url (primary_request api job_id))
              (url (secondary_request api job_id)) Hfail) as (Hreq & Hok & Hko).
  change {| url := url (primary_request api job_id); params := None |}
    with (primary_request api job_id) in Hreq, Hok, Hko.
  change {| url := url (secondary_request api job_id); params := None |}
    with (secondary_request api job_id) in Hreq, Hok, Hko.
  change (base_url api +:+ "/jobs/" +:+ job_id +:+ "/metadata")
    with (url (primary_request api job_id)).
  change (base_url api +:+ "/jobs/" +:+ job_id)
    with (url (secondary_request api job_id)).
  split_and!.
  - destruct (try_urls _ _ _ _) as [t [s|e]]; cbn -[requests] in *; [|done].
    destruct (meta_data s); cbn -[requests];
      rewrite requests_app, Hreq; by rewrite app_nil_r.
  - intros kw H2. destruct (Hok kw H2) as (s & -> & Hs). cbn. by rewrite Hs.
  - intros H2. destruct (Hko H2) as (s & -> & Hs & Hrep). cbn. by rewrite Hs, Hrep.
Qed.
End Metadata.

Lemma show_metadata_fallback_witness :
  requests (trace (show_metadata unreachable_then_500 (fun _ => None)
                     (new_api "http://localhost:5050") "j1")) =
    [primary_request (new_api "http://localhost:5050") "j1";
     secondary_request (new_api "http://localhost:5050") "j1"] /\
  show_metadata unreachable_then_500 (fun _ => None) (new_api "http://localhost:5050") "j1" =
    ([Get (primary_request (new_api "http://localhost:5050") "j1");
      Get (secondary_request (new_api "http://localhost:5050") "j1");
      StError (failure_report
                 (unreachable_then_500 (primary_request (new_api "http://localhost:5050") "j1"))
                 (unreachable_then_500 (secondary_request (new_api "http://localhost:5050") "j1")))],
     Ok tt).
Proof.
  destruct (show_metadata_fallback unreachable_then_500 (fun _ => None)
              (new_api "http://localhost:5050") "j1" I) as (Hreq & _ & Hko).
  split; [exact Hreq|]. apply Hko. vm_compute. discriminate.
Defined.

(** C5 as stated fails: the first attempt raises "boom", the second one
    answers 500, and the panel reports the exception of the first attempt,
    not the status observed last. *)
Lemma show_metadata_reports_earlier_error :
  show_metadata unreachable_then_500 (fun _ => None) (new_api "http://localhost:5050") "j1" =
    ([Get {| url := "http://localhost:5050/jobs/j1/metadata"; params := None |};
      Get {| url := "http://localhost:5050/jobs/j1"; params := None |};
      StError "Failed to fetch metadata. Last error: boom"], Ok tt) /\
  unreachable_then_500 {| url := "http://localhost:5050/jobs/j1"; params := None |} =
    Responded {| status_code := 500; body := None |} /\
  "Failed to fetch metadata. Last error: boom" <>
    last_observed_report
      (unreachable_then_500 {| url := "http://localhost:5050/jobs/j1"; params := None |}).
Proof. split_and!; [reflexivity|reflexivity|by vm_compute]. Qed.

(** A 404 followed by a 200 with a JSON object shows the object. *)
Example show_metadata_404_then_200 :
  show_metadata
    (fun r => if decide (url r = "http://localhost:5050/jobs/j1/metadata")
              then Responded {| status_code := 404; body := None |}
              else Responded {| status_code := 200;
                                body := Some (PDict [("jobID", PStr "j1")]) |})
    (fun _ => None) (new_api "http://localhost:5050") "j1" =
    ([Get {| url := "http://localhost:5050/jobs/j1/metadata"; params := None |};
      Get {| url := "http://localhost:5050/jobs/j1"; params := None |};
      StJson (PDict [("jobID", PStr "j1")])], Ok tt).
Proof. reflexivity. Qed.

(** When the jobs listing fails, the overview gets an empty list and shows
    the no-data message. *)
Lemma jobs_overview_fetch_failed http (Job_validate : kwargs -> option Job) api status data :
  http (request_for api "jobs") =
    Responded {| status_code := status; body := data |} ->
  status <> 200%Z ->
  jobs_overview http Job_validate api =
    ([Get (request_for api "jobs");
      Print ("Failed to fetch data from " +:+ "jobs" +:+ ": " +:+ pretty status);
      StInfo "No jobs available for overview charts."], Ok tt).
Proof.
  intros H Hst. unfold jobs_overview.
  by rewrite (fetch_table_not_200 _ _ _ _ _ _ _ H Hst).
Qed.

(** The jobs panel shows its own no-data message when the fetch fails and
    when the listing is empty. *)
Lemma jobs_panel_no_rows http (Job_validate : kwargs -> option Job) show_jobs_table api
    (selected_process_id selected_job_id : option string) status data :
  http (request_for api "jobs") = Responded {| status_code := status; body := data |} ->
  status <> 200%Z \/ (status = 200%Z /\ data = Some (PDict [("jobs", PList [])])) ->
  outcome_of (jobs_panel http Job_validate show_jobs_table api
                selected_process_id selected_job_id) = Ok None /\
  last (trace (jobs_panel http Job_validate show_jobs_table api
                 selected_process_id selected_job_id)) = Some (StInfo "No jobs found.").
Proof.
  intros H [Hst|[-> ->]]; unfold jobs_panel.
  - by rewrite (fetch_table_not_200 _ _ _ _ _ _ _ H Hst).
  - by rewrite (fetch_table_ok _ _ _ _ _ _ H).
Qed.

End HomeFacts.

(** * Further properties of the code *)

Local Set Warnings "-clear-no-such-hyp".

(** ** More on the API client *)

Module SepexExtra.
Import Py Sepex SepexFacts ProcessesYaml.

Lemma rstrip_slash_cons c s :
  rstrip_slash (String c s) =
    match rstrip_slash s with
    | EmptyString => if decide (c = "/"%char) then EmptyString else String c EmptyString
    | t => String c t
    end.
Proof. reflexivity. Qed.

Lemma rstrip_slash_app_slash s : rstrip_slash (s +:+ "/") = rstrip_slash s.
Proof.
  induction s as [|c s IH]; [done|].
  change (String c s +:+ "/") with (String c (s +:+ "/")).
  by rewrite !rstrip_slash_cons, IH.
Qed.

Lemma append_slash_not_empty t : t +:+ "/" <> "".
Proof. by destruct t. Qed.

Lemma rstrip_slash_no_trailing s t : rstrip_slash s <> t +:+ "/".
Proof.
  revert t. induction s as [|c s IH]; intros t.
  - intros H. by apply (append_slash_not_empty t).
  - rewrite rstrip_slash_cons. destruct (rstrip_slash s) as [|d u] eqn:Hs.
    + case_decide as Hc.
      * intros H. by apply (append_slash_not_empty t).
      * destruct t as [|c' t]; cbn.
        -- intros [= Hc']. congruence.
        -- intros [= _ Ht]. by apply (append_slash_not_empty t).
    + destruct t as [|c' t]; cbn; [done|].
      intros [= _ Ht]. by apply (IH t).
Qed.

Lemma rstrip_slash_fixed s : (forall t, s <> t +:+ "/") -> rstrip_slash s = s.
Proof.
  induction s as [|c s IH]; intros Hs; [done|]. rewrite rstrip_slash_cons.
  destruct s as [|d u].
  - cbn. rewrite decide_False; [done|]. intros ->. by apply (Hs "").
  - rewrite IH.
    + done.
    + intros t Ht. apply (Hs (String c t)). cbn. by rewrite Ht.
Qed.

(** X1: the client drops every trailing slash of its base URL: the stored
    URL never ends with a slash, adding a slash to the base changes nothing,
    and so two bases that differ by one trailing slash request the same
    URL. *)
Theorem new_api_trailing_slash (base endpoint : string) :
  (forall t, base_url (new_api base) <> t +:+ "/") /\
  new_api (base +:+ "/") = new_api base /\
  new_api (base_url (new_api base)) = new_api base /\
  request_for (new_api (base +:+ "/")) endpoint = request_for (new_api base) endpoint.
Proof.
  unfold new_api, request_for. cbn [base_url].
  rewrite rstrip_slash_app_slash. split_and!; try done.
  - apply rstrip_slash_no_trailing.
  - f_equal. apply rstrip_slash_fixed. apply rstrip_slash_no_trailing.
Qed.

(** X2: when every element of the array validates, the table holds one
    record per element, in the order of the array. *)
Theorem fetch_table_in_order {R} (http : request -> outcome) (api : SepexAPI)
    (endpoint : string) (model_cls : kwargs -> option R) (params : option kwargs)
    (items : list kwargs) (rs : list R) :
  http (request_for api endpoint) =
    Responded {| status_code := 200; body := Some (PList (PDict <$> items)) |} ->
  mapM model_cls items = Some rs ->
  fetch_table http api endpoint model_cls params = ([Get (request_for api endpoint)], Ok (Some rs)) /\
  length rs = length items /\
  (forall (i : nat) (kw : kwargs), items !! i = Some kw -> model_cls kw = rs !! i).
Proof.
  intros H Hrs. rewrite (fetch_table_ok _ _ _ _ _ _ H). unfold decode_table.
  cbn [unwrap_envelope iterate]. cbn. rewrite (mapM_construct_valid _ _ _ Hrs). cbn.
  apply mapM_Some in Hrs. split_and!; [done|by apply Forall2_length in Hrs|].
  intros i kw Hi. destruct (Forall2_lookup_l _ _ _ _ _ Hrs Hi) as (r & -> & Hr). done.
Qed.

Lemma fetch_table_in_order_witness :
  fetch_table (always 200 (Some (PList (PDict <$> [sample_process; sample_process]))))
              (new_api "http://localhost:5050") "processes" Process_validate None
    = ([Get (request_for (new_api "http://localhost:5050") "processes")],
       Ok (Some (default [] (mapM Process_validate [sample_process; sample_process])))) /\
  length (default [] (mapM Process_validate [sample_process; sample_process])) = 2.
Proof.
  assert (Hm : mapM Process_validate [sample_process; sample_process] =
               Some (default [] (mapM Process_validate [sample_process; sample_process])))
    by reflexivity.
  destruct (fetch_table_in_order (always 200 (Some (PList (PDict <$> [sample_process; sample_process]))))
              (new_api "http://localhost:5050") "processes" Process_validate None
              [sample_process; sample_process]
              (default [] (mapM Process_validate [sample_process; sample_process]))
              eq_refl Hm) as (H & Hlen & _).
  split; [exact H|exact Hlen].
Defined.

Lemma mapM_construct_first_failure {R} (cls : kwargs -> option R) pre bad post e :
  Forall (fun kw => is_Some (cls kw)) pre ->
  construct cls bad = ([], Raise e) ->
  mapM (construct cls) ((PDict <$> pre) ++ bad :: post) = ([], Raise e).
Proof.
  intros Hpre Hbad. induction Hpre as [|kw pre [r Hr] _ IH].
  - cbn. by rewrite Hbad.
  - cbn. rewrite Hr. cbn.
    change (list_fmap _ _ PDict pre) with (PDict <$> pre).
    change (app (PDict <$> pre) (bad :: post)) with ((PDict <$> pre) ++ bad :: post).
    by rewrite IH.
Qed.

(** X3: validation is fail-fast: the first element that is not an object or
    does not validate makes the whole call raise, whatever follows it; no
    partial table is returned. *)
Theorem fetch_table_fail_fast {R} (http : request -> outcome) (api : SepexAPI)
    (endpoint : string) (model_cls : kwargs -> option R) (params : option kwargs)
    (pre : list kwargs) (bad : pyval) (post : list pyval) (e : exn) :
  http (request_for api endpoint) =
    Responded {| status_code := 200;
                 body := Some (PList ((PDict <$> pre) ++ bad :: post)) |} ->
  Forall (fun kw => is_Some (model_cls kw)) pre ->
  construct model_cls bad = ([], Raise e) ->
  fetch_table http api endpoint model_cls params = ([Get (request_for api endpoint)], Raise e).
Proof.
  intros H Hpre Hbad. rewrite (fetch_table_ok _ _ _ _ _ _ H). unfold decode_table.
  cbn [unwrap_envelope iterate]. cbn.
  by rewrite (mapM_construct_first_failure _ _ _ _ _ Hpre Hbad).
Qed.

Lemma fetch_table_fail_fast_witness :
  fetch_table (always 200 (Some (PList ((PDict <$> [sample_process])
                                        ++ PDict [("id", PStr "p2")] :: [PDict sample_process]))))
              (new_api "http://localhost:5050") "processes" Process_validate None
    = ([Get (request_for (new_api "http://localhost:5050") "processes")],
       Raise ValidationError).
Proof.
  apply (fetch_table_fail_fast _ _ _ _ _ [sample_process] (PDict [("id", PStr "p2")])
           [PDict sample_process] ValidationError eq_refl).
  - repeat constructor. vm_compute. eauto.
  - reflexivity.
Defined.

Lemma unwrap_envelope_no_list (kvs : kwargs) :
  Forall (fun kv : string * pyval => is_list kv.2 = false) kvs ->
  unwrap_envelope (PDict kvs) = PDict kvs.
Proof.
  intros H. unfold unwrap_envelope.
  assert (Hnone : list_find (fun v => is_list v = true) kvs.*2 = None).
  { apply list_find_None. apply Forall_fmap.
    eapply Forall_impl; [exact H|]. intros [k v] Hv. csimpl in *. congruence. }
  by rewrite Hnone.
Qed.

(** X4: a 200 response whose body is an object without any array-valued
    field is not treated as an empty collection: the keys of the object are
    taken as items and the call raises [TypeError], unless the object is
    empty, which gives the empty table. *)
Theorem fetch_table_object_without_array {R} (http : request -> outcome) (api : SepexAPI)
    (endpoint : string) (model_cls : kwargs -> option R) (params : option kwargs)
    (kvs : kwargs) :
  http (request_for api endpoint) =
    Responded {| status_code := 200; body := Some (PDict kvs) |} ->
  Forall (fun kv : string * pyval => is_list kv.2 = false) kvs ->
  fetch_table http api endpoint model_cls params =
    ([Get (request_for api endpoint)],
     if decide (kvs = []) then Ok (Some []) else Raise TypeError).
Proof.
  intros H Hno. rewrite (fetch_table_ok _ _ _ _ _ _ H). unfold decode_table.
  rewrite (unwrap_envelope_no_list _ Hno).
  destruct kvs as [|[k v] kvs]; [done|]. by rewrite decide_False.
Qed.

Lemma fetch_table_object_without_array_witness :
  fetch_table (always 200 (Some (PDict [("message", PStr "no jobs")])))
              (new_api "http://localhost:5050") "jobs" Process_validate None
    = ([Get (request_for (new_api "http://localhost:5050") "jobs")],
       if decide ([("message", PStr "no jobs")] = ([] : kwargs))
       then Ok (Some []) else Raise TypeError).
Proof.
  apply (fetch_table_object_without_array _ _ _ _ _ [("message", PStr "no jobs")] eq_refl).
  repeat constructor.
Defined.

(** X5: the client catches nothing: a request that raises makes
    [fetch_table], [fetch_processes_dict] and [fetch_processes_yaml] raise
    the same exception, and a 200 response whose body is not JSON makes them
    raise [JSONDecodeError]; in both cases after the single GET and without
    printing. *)
Theorem client_exceptions_propagate {R} (http : request -> outcome) (api : SepexAPI)
    (endpoint : string) (model_cls : kwargs -> option R) (params : option kwargs)
    (yaml_dump : list Process -> string) :
  (forall e : string,
     http (request_for api endpoint) = Raised e ->
     fetch_table http api endpoint model_cls params =
       ([Get (request_for api endpoint)], Raise (RequestException e)) /\
     fetch_processes_dict http api endpoint =
       ([Get (request_for api endpoint)], Raise (RequestException e)) /\
     fetch_processes_yaml http yaml_dump api endpoint =
       ([Get (request_for api endpoint)], Raise (RequestException e))) /\
  (http (request_for api endpoint) = Responded {| status_code := 200; body := None |} ->
     fetch_table http api endpoint model_cls params =
       ([Get (request_for api endpoint)], Raise JSONDecodeError) /\
     fetch_processes_dict http api endpoint =
       ([Get (request_for api endpoint)], Raise JSONDecodeError) /\
     fetch_processes_yaml http yaml_dump api endpoint =
       ([Get (request_for api endpoint)], Raise JSONDecodeError)).
Proof.
  split; [intros e H|intros H];
    unfold fetch_table, fetch_processes_dict, fetch_processes_yaml, get, try_get;
    fold (request_for api endpoint); cbn; rewrite H; done.
Qed.

Lemma client_exceptions_propagate_witness :
  fetch_table (fun _ => Raised "connection refused") (new_api "http://localhost:5050")
              "jobs" Process_validate None =
    ([Get (request_for (new_api "http://localhost:5050") "jobs")],
     Raise (RequestException "connection refused")) /\
  fetch_processes_dict (always 200 None) (new_api "http://localhost:5050") "jobs" =
    ([Get (request_for (new_api "http://localhost:5050") "jobs")], Raise JSONDecodeError).
Proof.
  split.
  - apply (proj1 (client_exceptions_propagate (fun _ => Raised "connection refused")
                    (new_api "http://localhost:5050") "jobs" Process_validate None
                    (fun _ => "")) "connection refused" eq_refl).
  - apply (proj2 (client_exceptions_propagate (R := Process) (always 200 None)
                    (new_api "http://localhost:5050") "jobs" Process_validate None
                    (fun _ => "")) eq_refl).
Defined.

(** *** [fetch_processes_yaml] *)

Lemma fetch_processes_yaml_entries http yaml_dump api endpoint kvs (entries : list kwargs) :
  http (request_for api endpoint) =
    Responded {| status_code := 200; body := Some (PDict kvs) |} ->
  default (PList []) (lookup_key "processes" kvs) = PList (PDict <$> entries) ->
  fetch_processes_yaml http yaml_dump api endpoint =
    let '(t, r) :=
      (process_ids ← mapM subscript_id (PDict <$> entries);
       dumps ← mapM (construct Process_validate) (PDict <$> entries);
       mret (Some (process_ids, yaml_dump dumps))) in
    (Get (request_for api endpoint) :: t, r).
Proof.
  intros H Hps. unfold fetch_processes_yaml, get, try_get.
  fold (request_for api endpoint). cbn. rewrite H. cbn. rewrite Hps. cbn.
  change (list_fmap _ _ PDict entries) with (PDict <$> entries).
  destruct (mapM subscript_id (PDict <$> entries)) as [t [ids|e]]; cbn; [|done].
  destruct (mapM (construct Process_validate) (PDict <$> entries)) as [t' [ds|e]]; cbn; done.
Qed.

Lemma mapM_subscript_id_missing (pre : list kwargs) (bad : kwargs) (post : list pyval) :
  Forall (fun kw => is_Some (lookup_key "id" kw)) pre ->
  lookup_key "id" bad = None ->
  mapM subscript_id ((PDict <$> pre) ++ PDict bad :: post) = ([], Raise (KeyError "id")).
Proof.
  intros Hpre Hbad. induction Hpre as [|kw pre [v Hv] _ IH].
  - cbn. by rewrite Hbad.
  - cbn. rewrite Hv. cbn.
    change (list_fmap _ _ PDict pre) with (PDict <$> pre).
    change (app (PDict <$> pre) (PDict bad :: post)) with ((PDict <$> pre) ++ PDict bad :: post).
    by rewrite IH.
Qed.

Lemma lookup_key_None k (kw : kwargs) : lookup_key k kw = None <-> k ∉ kw.*1.
Proof.
  induction kw as [|[k' v] kw IH]; csimpl.
  - split; [intros _; apply not_elem_of_nil|done].
  - case_decide; subst.
    + split; [done|]. intros Hk. exfalso. apply Hk. apply elem_of_cons. by left.
    + rewrite IH, not_elem_of_cons. split; [by intros ?|by intros [_ ?]].
Qed.

Lemma split_first_without_id (entries : list kwargs) :
  Exists (fun kw => "id" ∉ kw.*1) entries ->
  exists pre bad post,
    entries = pre ++ bad :: post /\
    Forall (fun kw => is_Some (lookup_key "id" kw)) pre /\
    lookup_key "id" bad = None.
Proof.
  induction entries as [|kw entries IH]; intros Hex; [by apply Exists_nil in Hex|].
  destruct (lookup_key "id" kw) as [v|] eqn:Hkw.
  - apply Exists_cons in Hex as [Hno|Hex].
    + apply lookup_key_None in Hno. congruence.
    + destruct (IH Hex) as (pre & bad & post & -> & Hpre & Hbad).
      exists (kw :: pre), bad, post. split_and!; [done| |done].
      constructor; [by rewrite Hkw|done].
  - exists [], kw, entries. split_and!; [done|constructor|done].
Qed.

Lemma collect_processes_no_KeyError acc (entries : list kwargs) k :
  outcome_of (collect_processes acc (PDict <$> entries)) <> Raise (KeyError k).
Proof.
  revert acc. induction entries as [|kw entries IH]; intros acc; [done|].
  cbn [fmap list_fmap collect_processes]. rewrite add_process_dict.
  change (list_fmap _ _ PDict entries) with (PDict <$> entries).
  case_decide.
  - destruct (Process_validate kw) as [p|]; [|done]. cbn.
    specialize (IH (<[id p:=p]> acc)).
    by destruct (collect_processes _ _) as [t [d|e]].
  - cbn. specialize (IH acc). by destruct (collect_processes _ _) as [t [d|e]].
Qed.

(** X6: the two process listings treat an entry without "id" differently:
    [fetch_processes_yaml] raises [KeyError] as soon as one entry of the
    array lacks the key (before validating anything), while
    [fetch_processes_dict] on the same response never raises [KeyError]. *)
Theorem fetch_processes_yaml_missing_id (http : request -> outcome)
    (yaml_dump : list Process -> string) (api : SepexAPI) (endpoint : string)
    (kvs : kwargs) (entries : list kwargs) :
  http (request_for api endpoint) =
    Responded {| status_code := 200; body := Some (PDict kvs) |} ->
  default (PList []) (lookup_key "processes" kvs) = PList (PDict <$> entries) ->
  Exists (fun kw => "id" ∉ kw.*1) entries ->
  fetch_processes_yaml http yaml_dump api endpoint =
    ([Get (request_for api endpoint)], Raise (KeyError "id")) /\
  outcome_of (fetch_processes_dict http api endpoint) <> Raise (KeyError "id").
Proof.
  intros H Hps Hex. split.
  - rewrite (fetch_processes_yaml_entries _ _ _ _ _ _ H Hps).
    destruct (split_first_without_id _ Hex) as (pre & bad & post & -> & Hpre & Hbad).
    rewrite fmap_app, fmap_cons.
    by rewrite (mapM_subscript_id_missing _ _ _ Hpre Hbad).
  - unfold fetch_processes_dict, get, try_get. fold (request_for api endpoint).
    cbn. rewrite H. cbn. rewrite Hps. cbn.
    change (list_fmap _ _ PDict entries) with (PDict <$> entries).
    pose proof (collect_processes_no_KeyError ∅ entries "id") as Hno.
    by destruct (collect_processes _ _) as [t [d|e]].
Qed.

Lemma fetch_processes_yaml_missing_id_witness :
  fetch_processes_yaml (always 200 (Some sample_listing)) (fun _ => "")
                       (new_api "http://localhost:5050") "processes" =
    ([Get (request_for (new_api "http://localhost:5050") "processes")],
     Raise (KeyError "id")) /\
  outcome_of (fetch_processes_dict (always 200 (Some sample_listing))
                (new_api "http://localhost:5050") "processes") <> Raise (KeyError "id").
Proof.
  apply (fetch_processes_yaml_missing_id (always 200 (Some sample_listing)) _ _ _
           [("processes", PList [PDict sample_process; PDict [("title", PStr "no id")]]);
            ("links", PList [])]
           [sample_process; [("title", PStr "no id")]] eq_refl eq_refl).
  apply Exists_cons_tl, Exists_cons_hd. by apply (bool_decide_eq_false_1 _).
Defined.

Lemma lookup_key_Some_elem k (kw : kwargs) v : lookup_key k kw = Some v -> k ∈ kw.*1.
Proof.
  intros H. destruct (decide (k ∈ kw.*1)) as [|Hn]; [done|].
  apply lookup_key_None in Hn. congruence.
Qed.

Lemma mapM_subscript_id_valid (entries : list kwargs) (rs : list Process) :
  Forall2 (fun kw r => Process_validate kw = Some r) entries rs ->
  mapM subscript_id (PDict <$> entries) = ([], Ok ((fun r => PStr (id r)) <$> rs)).
Proof.
  induction 1 as [|kw r entries rs Hr _ IH]; [done|].
  cbn. rewrite (Process_validate_id _ _ Hr). cbn.
  change (list_fmap _ _ PDict entries) with (PDict <$> entries).
  by rewrite IH.
Qed.

Lemma with_id_all_valid (entries : list kwargs) (rs : list Process) :
  Forall2 (fun kw r => Process_validate kw = Some r) entries rs ->
  with_id entries = entries /\ omap Process_validate entries = rs.
Proof.
  unfold with_id. induction 1 as [|kw r entries rs Hr _ [IH1 IH2]]; [done|].
  rewrite filter_cons_True
    by (eapply lookup_key_Some_elem, Process_validate_id, Hr).
  cbn. rewrite Hr, IH1. split; [done|]. by rewrite <- IH2.
Qed.

Lemma keyed_dom acc rs :
  dom (keyed acc rs) = dom acc ∪ list_to_set (id <$> rs).
Proof.
  unfold keyed. revert acc. induction rs as [|r rs IH]; intros acc; cbn.
  - set_solver.
  - rewrite IH, dom_insert_L. set_solver.
Qed.

(** X7: when every entry of the processes array validates, the two listings
    agree: [fetch_processes_yaml] returns the ids in array order (repeats
    kept) with the dump of the validated processes, and the dict of
    [fetch_processes_dict] has exactly those ids as keys. *)
Theorem fetch_processes_yaml_agrees (http : request -> outcome)
    (yaml_dump : list Process -> string) (api : SepexAPI) (endpoint : string)
    (kvs : kwargs) (entries : list kwargs) (rs : list Process) :
  http (request_for api endpoint) =
    Responded {| status_code := 200; body := Some (PDict kvs) |} ->
  default (PList []) (lookup_key "processes" kvs) = PList (PDict <$> entries) ->
  mapM Process_validate entries = Some rs ->
  fetch_processes_yaml http yaml_dump api endpoint =
    ([Get (request_for api endpoint)],
     Ok (Some ((fun r => PStr (id r)) <$> rs, yaml_dump rs))) /\
  exists d : gmap string Process,
    fetch_processes_dict http api endpoint = ([Get (request_for api endpoint)], Ok d) /\
    dom d = list_to_set (id <$> rs).
Proof.
  intros H Hps Hrs. pose proof Hrs as Hall. apply mapM_Some in Hall. split.
  - rewrite (fetch_processes_yaml_entries _ _ _ _ _ _ H Hps).
    rewrite (mapM_subscript_id_valid _ _ Hall). cbn.
    by rewrite (mapM_construct_valid _ _ _ Hrs).
  - destruct (with_id_all_valid _ _ Hall) as [Hid Hom].
    exists (keyed ∅ rs). split.
    + unfold fetch_processes_dict, get, try_get. fold (request_for api endpoint).
      cbn. rewrite H. cbn. rewrite Hps. cbn.
      change (list_fmap _ _ PDict entries) with (PDict <$> entries).
      rewrite collect_processes_valid.
      * by rewrite Hid, Hom.
      * rewrite Hid. eapply Forall2_Forall_l; [exact Hall|].
        apply Forall_forall. intros r _ kw Hkw. eauto.
    + rewrite keyed_dom, dom_empty_L. set_solver.
Qed.

Lemma fetch_processes_yaml_agrees_witness :
  fetch_processes_yaml
    (always 200 (Some (PDict [("processes", PList [PDict sample_process])])))
    (fun rs => "yaml") (new_api "http://localhost:5050") "processes" =
    ([Get (request_for (new_api "http://localhost:5050") "processes")],
     Ok (Some ((fun r => PStr (id r))
                 <$> default [] (mapM Process_validate [sample_process]), "yaml"))) /\
  exists d : gmap string Process,
    fetch_processes_dict
      (always 200 (Some (PDict [("processes", PList [PDict sample_process])])))
      (new_api "http://localhost:5050") "processes" =
      ([Get (request_for (new_api "http://localhost:5050") "processes")], Ok d) /\
    dom d = list_to_set (id <$> default [] (mapM Process_validate [sample_process])).
Proof.
  assert (Hm : mapM Process_validate [sample_process] =
               Some (default [] (mapM Process_validate [sample_process]))) by reflexivity.
  exact (fetch_processes_yaml_agrees
           (always 200 (Some (PDict [("processes", PList [PDict sample_process])])))
           (fun rs => "yaml") (new_api "http://localhost:5050") "processes"
           [("processes", PList [PDict sample_process])] [sample_process] _
           eq_refl eq_refl Hm).
Defined.

End SepexExtra.

(** ** More on the jobs overview *)

Module HelpersExtra.
Import Py Sepex Helpers Home OverviewVocabulary SepexFacts HelpersFacts BreakdownFacts.

Lemma length_remove_dups_le (l : list string) : length (remove_dups l) <= length l.
Proof.
  induction l as [|x l IH]; csimpl; [done|]. case_decide; csimpl; lia.
Qed.

Lemma length_dropna_le {A} (col : list (option A)) :
  length (Breakdown.dropna col) <= length col.
Proof.
  unfold Breakdown.dropna. induction col as [|[a|] col IH]; csimpl; lia.
Qed.

Lemma three_filters_le (jobs : list job) (a b c : string) :
  a <> b -> a <> c -> b <> c ->
  length (filter (fun j => cell (status j) = Some a) jobs)
  + length (filter (fun j => cell (status j) = Some b) jobs)
  + length (filter (fun j => cell (status j) = Some c) jobs) <= length jobs.
Proof.
  intros Hab Hac Hbc. induction jobs as [|j jobs IH]; csimpl; [done|].
  rewrite !filter_cons.
  repeat case_decide; csimpl; try lia; congruence.
Qed.

(** X8: the KPIs are consistent with the total: the successful, failed and
    running counts together never exceed the number of jobs (other statuses
    are counted in none of them), and neither does the number of distinct
    processes. *)
Theorem kpis_within_total (jobs : list job) :
  successful (compute_kpis jobs) + failed (compute_kpis jobs)
    + running (compute_kpis jobs) <= total_jobs (compute_kpis jobs) /\
  unique_processes (compute_kpis jobs) <= total_jobs (compute_kpis jobs).
Proof.
  cbn [compute_kpis successful failed running total_jobs unique_processes]. split.
  - rewrite !count_status_filter. by apply three_filters_le.
  - destruct (has_column processID jobs); [|lia].
    unfold Breakdown.distinct.
    etrans; [apply length_remove_dups_le|].
    etrans; [apply length_dropna_le|]. unfold column. by rewrite length_fmap.
Qed.

(** X9: the "Last seen" KPI is the latest timestamp of the list: it is one
    of the timestamps and no timestamp is later; it is missing exactly when
    no job has a timestamp. *)
Theorem last_seen_latest (jobs : list job) :
  (last_seen (compute_kpis jobs) = None <-> timestamps jobs = []) /\
  (forall t : Z, last_seen (compute_kpis jobs) = Some t ->
     t ∈ timestamps jobs /\ Forall (fun u => u <= t)%Z (timestamps jobs)).
Proof.
  cbn [compute_kpis last_seen].
  destruct (timestamped jobs) eqn:Hts.
  - apply timestamped_iff in Hts. unfold series_max, timestamps in *.
    destruct (Breakdown.dropna (column updated jobs)) as [|u us]; [done|].
    destruct (foldr_max_spec u us) as [Hin Hle].
    split; [done|]. by intros t [= <-].
  - assert (Hnil : timestamps jobs = []).
    { destruct (decide (timestamps jobs = [])) as [|Hne]; [done|].
      apply timestamped_iff in Hne. congruence. }
    split; [done|]. done.
Qed.

Lemma last_seen_latest_witness :
  last_seen (compute_kpis six_hour_jobs) = Some (1000 + Timedelta_hours 6)%Z /\
  (1000 + Timedelta_hours 6)%Z ∈ timestamps six_hour_jobs /\
  Forall (fun u => u <= 1000 + Timedelta_hours 6)%Z (timestamps six_hour_jobs).
Proof.
  split; [reflexivity|].
  apply (proj2 (last_seen_latest six_hour_jobs) (1000 + Timedelta_hours 6)%Z).
  reflexivity.
Defined.




(** With an index at UTC+05:30 (midnight is 18:30 UTC) the hourly bucket of
    00:45 UTC starts at 00:30 UTC, not at 00:00. *)
Example bucket_start_at_half_hour_offset :
  bucket_start_at (Timedelta_minutes (-330)) B1h (Timedelta_minutes 45)
    = Timedelta_minutes 30 /\
  bucket_start B1h (Timedelta_minutes 45) = 0%Z.
Proof. split; reflexivity. Qed.









Lemma dropna_Some {A} (l : list A) : Breakdown.dropna (Some <$> l) = l.
Proof. unfold Breakdown.dropna. induction l; csimpl; [done|]. by f_equal. Qed.

Lemma top_n_with_overflow_length_le (col : list (option string)) :
  length (Breakdown.top_n_with_overflow col) <= 11.
Proof.
  unfold Breakdown.top_n_with_overflow.
  destruct (decide (Breakdown.top_n < length (Breakdown.value_counts col))) as [Hlt|Hge].
  - destruct (collapse_overflow_over _ _ Hlt) as [_ ->]. unfold Breakdown.top_n. lia.
  - rewrite collapse_overflow_within by lia. unfold Breakdown.top_n in Hge. lia.
Qed.

(** X13: whatever the input, a breakdown has at most 11 rows and its counts
    add up to the number of values counted; so the process pie accounts for
    every job exactly once when every job has a process id, whatever the
    title map, and the submitter chart for every job that has a
    submitter. *)
Theorem breakdown_totals (col : list (option string)) (process_map : gmap string string)
    (jobs : list job) :
  length (Breakdown.top_n_with_overflow col) <= 11 /\
  sum_list (Breakdown.top_n_with_overflow col).*2 = length (Breakdown.dropna col) /\
  (Forall (fun j => is_Some (cell (processID j))) jobs ->
   sum_list (Breakdown.top_n_with_overflow (Some <$> process_titles process_map jobs)).*2
     = length jobs) /\
  sum_list (Breakdown.top_n_with_overflow (column submitter jobs)).*2
    = length (filter (fun j => is_Some (cell (submitter j))) jobs).
Proof.
  assert (Hsum : forall c, sum_list (Breakdown.top_n_with_overflow c).*2
                           = length (Breakdown.dropna c)).
  { intros c. unfold Breakdown.top_n_with_overflow. rewrite collapse_overflow_sum.
    by destruct (value_counts_spec c) as (_ & _ & _ & -> & _). }
  split_and!.
  - apply top_n_with_overflow_length_le.
  - apply Hsum.
  - intros _. rewrite Hsum, dropna_Some. unfold process_titles. by rewrite length_fmap.
  - rewrite Hsum. unfold Breakdown.dropna, column.
    induction jobs as [|j jobs IH]; csimpl; [done|].
    destruct (cell (submitter j)) as [v|] eqn:Hc; csimpl.
    + rewrite filter_cons_True by (rewrite Hc; eauto). csimpl. by rewrite IH.
    + rewrite filter_cons_False by (rewrite Hc; by intros [? ?]). done.
Qed.

Lemma breakdown_totals_witness :
  sum_list (Breakdown.top_n_with_overflow
              (Some <$> process_titles {["p" := "Process P"]} six_hour_jobs)).*2
    = length six_hour_jobs.
Proof.
  apply (proj1 (proj2 (proj2 (breakdown_totals [] {["p" := "Process P"]} six_hour_jobs)))).
  repeat constructor; vm_compute; eauto.
Defined.

Section RenderFacts.
Variable http : request -> outcome.
Variable api : SepexAPI.

Lemma render_jobs_overview_steps (jobs : list job) t maps :
  df_empty jobs = false ->
  get_process_maps http api = (t, Ok maps) ->
  render_jobs_overview http jobs api =
    (t ++ kpi_metrics jobs ++ trace (render_charts maps.1 jobs),
     outcome_of (render_charts maps.1 jobs)).
Proof.
  intros Hne Hmaps. unfold render_jobs_overview, kpi_metrics. rewrite Hne, Hmaps.
  cbn -[render_charts compute_kpis pretty].
  destruct (last_seen (compute_kpis jobs)); cbn -[render_charts compute_kpis pretty];
    by destruct (render_charts maps.1 jobs) as [t' r].
Qed.

(** X14: the overview needs the processes listing before it shows anything:
    when [get_process_maps] raises (the listing is unreachable, is not JSON,
    or holds an invalid process), the overview of a non-empty job list
    raises the same exception and shows no KPI and no chart. *)
Theorem render_jobs_overview_listing_raises (jobs : list job) (t : list event) (e : exn) :
  df_empty jobs = false ->
  get_process_maps http api = (t, Raise e) ->
  render_jobs_overview http jobs api = (t, Raise e).
Proof.
  intros Hne Hmaps. unfold render_jobs_overview. by rewrite Hne, Hmaps.
Qed.

(** X15: a job list with timestamps but without any "status" key cannot be
    charted: the KPIs are shown, then grouping by status raises [KeyError]
    and no chart and no message follows. *)
Theorem render_jobs_overview_without_status (jobs : list job) (t : list event)
    (maps : gmap string string * gmap string pyval) :
  get_process_maps http api = (t, Ok maps) ->
  timestamped jobs = true ->
  has_column status jobs = false ->
  render_jobs_overview http jobs api = (t ++ kpi_metrics jobs, Raise (KeyError "status")).
Proof.
  intros Hmaps Hts Hst.
  assert (Hne : df_empty jobs = false).
  { unfold df_empty, timestamped in *. apply andb_true_iff in Hts as [Hcol _].
    rewrite Hcol. destruct jobs; [done|]. cbn. by rewrite orb_true_r. }
  rewrite (render_jobs_overview_steps _ _ _ Hne Hmaps).
  unfold render_charts. rewrite Hts, Hst. unfold trace, outcome_of. cbn [fst snd mbind M_bind raise].
  by rewrite app_nil_r.
Qed.
End RenderFacts.

Lemma render_jobs_overview_listing_raises_witness :
  render_jobs_overview (fun _ => Raised "connection refused") [job_at 0]
    (new_api "http://localhost:5050") =
    ([Get (request_for (new_api "http://localhost:5050") "processes")],
     Raise (RequestException "connection refused")).
Proof.
  apply (render_jobs_overview_listing_raises (fun _ => Raised "connection refused")
           (new_api "http://localhost:5050") [job_at 0]); reflexivity.
Defined.

Lemma render_jobs_overview_without_status_witness :
  render_jobs_overview (always 404 None) [timestamp_only 0]
    (new_api "http://localhost:5050") =
    ([Get (request_for (new_api "http://localhost:5050") "processes");
      Print ("Failed to fetch processes: " +:+ pretty 404%Z)]
     ++ kpi_metrics [timestamp_only 0], Raise (KeyError "status")).
Proof.
  apply (render_jobs_overview_without_status (always 404 None)
           (new_api "http://localhost:5050") [timestamp_only 0] _ (∅, ∅));
    reflexivity.
Defined.






End HelpersExtra.

(** ** More on the dashboard panels *)

Module HomeExtra.
Import Py Sepex Helpers Home Panels OverviewVocabulary PanelSamples SepexFacts.

(** X17: when the primary metadata endpoint answers 200, the secondary one
    is never requested: a JSON object is shown (validated dump, or the raw
    object), and a body that is not JSON or not an object makes the panel
    raise; the fallback covers failed requests only, not malformed
    answers. *)
Theorem show_metadata_primary_200 (http : request -> outcome)
    (JobMetadataResponse : kwargs -> option pyval) (api : SepexAPI) (job_id : string)
    (data : option pyval) :
  http (primary_request api job_id) = Responded {| status_code := 200; body := data |} ->
  requests (trace (show_metadata http JobMetadataResponse api job_id)) =
    [primary_request api job_id] /\
  show_metadata http JobMetadataResponse api job_id =
    match data with
    | Some (PDict kw) =>
        ([Get (primary_request api job_id);
          StJson (default (PDict kw) (JobMetadataResponse kw))], Ok tt)
    | Some _ => ([Get (primary_request api job_id)], Raise TypeError)
    | None => ([Get (primary_request api job_id)], Raise JSONDecodeError)
    end.
Proof.
  intros H. unfold show_metadata, metadata_urls.
  change (base_url api +:+ "/jobs/" +:+ job_id +:+ "/metadata")
    with (url (primary_request api job_id)).
  cbn [try_urls]. unfold try_get.
  change {| url := url (primary_request api job_id); params := None |}
    with (primary_request api job_id).
  rewrite H. by destruct data as [[]|].
Qed.

Lemma show_metadata_primary_200_witness :
  requests (trace (show_metadata (always 200 (Some (PList []))) (fun _ => None)
                     (new_api "http://localhost:5050") "j1")) =
    [primary_request (new_api "http://localhost:5050") "j1"] /\
  show_metadata (always 200 (Some (PList []))) (fun _ => None)
                (new_api "http://localhost:5050") "j1" =
    ([Get (primary_request (new_api "http://localhost:5050") "j1")], Raise TypeError).
Proof.
  apply (show_metadata_primary_200 (always 200 (Some (PList []))) (fun _ => None)
           (new_api "http://localhost:5050") "j1" (Some (PList [])) eq_refl).
Defined.

Section Details.
Variable http : request -> outcome.
Variable dataframe_ok : pyval -> bool.
Variable float_truthy : string -> bool.
Variable py_repr : pyval -> string.
Variable api : SepexAPI.
Variable job_id : string.

(** X18: the Results panel always ends with [st.json] of a JSON object or
    with [st.error]: whatever the server answers, the table view
    ([st.dataframe]) is never reached, because the value shown is either the
    validated [results] dict or the raw body, which had to be an object to
    be validated.  It sends exactly one request. *)
Theorem show_results_never_table :
  requests (trace (show_results http dataframe_ok api job_id)) =
    [ {| url := base_url api +:+ "/jobs/" +:+ job_id +:+ "/results"; params := None |} ] /\
  (forall v : view,
     outcome_of (show_results http dataframe_ok api job_id) = Ok v ->
     (exists kw : kwargs, v = VJson (PDict kw)) \/ (exists text : string, v = VError text)).
Proof.
  unfold show_results, try_get.
  destruct (http _) as [e|[st data]]; cbn.
  - split; [done|]. intros v [= <-]. right. eauto.
  - case_decide; cbn.
    + destruct data as [[| | | | | |kw]|]; cbn; try (split; [done|]; by intros v).
      destruct (JobResultsResponse_validate kw) as [r|]; cbn;
        (split; [done|]); intros v [= <-]; left; eauto.
    + split; [done|]. intros v [= <-]. right. eauto.
Qed.

(** X19: a logs response that validates is shown through [st.json] as the
    list of validated entries; the formatted text view is never used for
    it, since the entries are model objects and the test asks for a dict. *)
Theorem show_logs_validated (kw : kwargs) (logs_response : JobLogsResponse) :
  http {| url := base_url api +:+ "/jobs/" +:+ job_id +:+ "/logs"; params := None |} =
    Responded {| status_code := 200; body := Some (PDict kw) |} ->
  JobLogsResponse_validate kw = Some logs_response ->
  show_logs http float_truthy py_repr api job_id =
    ([Get {| url := base_url api +:+ "/jobs/" +:+ job_id +:+ "/logs"; params := None |}],
     Ok (VJsonLogs (process_logs logs_response))).
Proof.
  intros H Hv. unfold show_logs, try_get. cbn. rewrite H. cbn. by rewrite Hv.
Qed.

Lemma mapM_format_log_dicts (entries : list kwargs) :
  exists lines : list string,
    mapM (format_log py_repr) (PDict <$> entries) = ([], Ok lines) /\
    length lines = length entries.
Proof.
  induction entries as [|e entries (lines & IH & Hlen)]; [by exists []|].
  eexists (_ :: lines). cbn.
  change (list_fmap _ _ PDict entries) with (PDict <$> entries).
  rewrite IH. cbn. split; [done|]. by rewrite Hlen.
Qed.

(** X20: the formatted view is what a response that does not validate gets:
    if its "process_logs" is an array of objects whose first one has a "msg"
    key, the panel shows one text line per object, joined by newlines;
    missing "level", "time" or "msg" keys are printed as empty. *)
Theorem show_logs_raw_formatted (kw first : kwargs) (rest : list kwargs) :
  http {| url := base_url api +:+ "/jobs/" +:+ job_id +:+ "/logs"; params := None |} =
    Responded {| status_code := 200; body := Some (PDict kw) |} ->
  JobLogsResponse_validate kw = None ->
  lookup_key "process_logs" kw = Some (PList (PDict <$> first :: rest)) ->
  "msg" ∈ first.*1 ->
  exists lines : list string,
    length lines = S (length rest) /\
    mapM (format_log py_repr) (PDict <$> first :: rest) = ([], Ok lines) /\
    show_logs http float_truthy py_repr api job_id =
      ([Get {| url := base_url api +:+ "/jobs/" +:+ job_id +:+ "/logs"; params := None |}],
       Ok (VCode (String.concat newline lines))).
Proof.
  intros H Hv Hlogs Hmsg.
  destruct (mapM_format_log_dicts (first :: rest)) as (lines & Hlines & Hlen).
  exists lines. split_and!; [done|done|].
  unfold show_logs, try_get. cbn -[mapM]. rewrite H. cbn -[mapM]. rewrite Hv, Hlogs.
  cbn -[mapM]. rewrite bool_decide_eq_true_2 by done. cbn -[mapM].
  change (PDict first :: (PDict <$> rest)) with (PDict <$> first :: rest).
  by rewrite Hlines.
Qed.
End Details.

Lemma show_results_never_table_witness :
  requests (trace (show_results (always 200 (Some (PDict [("results", PList [])])))
                     (fun _ => true) (new_api "http://localhost:5050") "j1")) =
    [ {| url := "http://localhost:5050/jobs/j1/results"; params := None |} ] /\
  ((exists kw : kwargs, VJson (PDict [("results", PList [])]) = VJson (PDict kw)) \/
   (exists text : string, VJson (PDict [("results", PList [])]) = VError text)).
Proof.
  destruct (show_results_never_table (always 200 (Some (PDict [("results", PList [])])))
              (fun _ => true) (new_api "http://localhost:5050") "j1") as [Hreq Hview].
  split; [exact Hreq|]. apply Hview. reflexivity.
Defined.

Lemma show_logs_validated_witness :
  show_logs (always 200 (Some (PDict valid_logs))) (fun _ => true) (fun _ => "")
            (new_api "http://localhost:5050") "j1" =
    ([Get {| url := "http://localhost:5050/jobs/j1/logs"; params := None |}],
     Ok (VJsonLogs [ {| level := "info"; msg := "started"; time := "12:00" |} ])).
Proof.
  apply (show_logs_validated (always 200 (Some (PDict valid_logs))) (fun _ => true)
           (fun _ => "") (new_api "http://localhost:5050") "j1" valid_logs
           {| logs_jobID := "j1"; logs_processID := "p1"; logs_status := "running";
              process_logs := [ {| level := "info"; msg := "started"; time := "12:00" |} ];
              server_logs := [] |});
    reflexivity.
Defined.

Lemma show_logs_raw_formatted_witness :
  exists lines : list string,
    length lines = 2 /\
    mapM (format_log (fun _ => "")) (PDict <$> [sample_log; [("msg", PStr "done")]])
      = ([], Ok lines) /\
    show_logs (always 200 (Some (PDict partial_logs))) (fun _ => true) (fun _ => "")
              (new_api "http://localhost:5050") "j1" =
      ([Get {| url := "http://localhost:5050/jobs/j1/logs"; params := None |}],
       Ok (VCode (String.concat newline lines))).
Proof.
  apply (show_logs_raw_formatted (always 200 (Some (PDict partial_logs))) (fun _ => true)
           (fun _ => "") (new_api "http://localhost:5050") "j1" partial_logs
           sample_log [[("msg", PStr "done")]]); try reflexivity.
  by apply (bool_decide_eq_true_1 _).
Defined.

Example show_logs_partial_text :
  show_logs (always 200 (Some (PDict partial_logs))) (fun _ => true) (fun _ => "")
            (new_api "http://localhost:5050") "j1" =
    ([Get {| url := "http://localhost:5050/jobs/j1/logs"; params := None |}],
     Ok (VCode ("[info] 12:00 - started" +:+ newline +:+ "[]  - done"))).
Proof. reflexivity. Qed.

(** X21: the three filters of the jobs table keep the jobs in their original
    order, and with "All" everywhere nothing is removed.  A job that has a
    submitter is kept exactly when it matches every selection other than
    "All"; a job without submitter is kept under the submitter selection
    "All" exactly when it matches the other two selections.  This holds
    whatever [astype(str)] makes of a missing submitter. *)
Theorem apply_filters_spec (missing_as_str : option string)
    (selected_status selected_process selected_submitter : string) (df : list Job) :
  (forall (j : Job) (s : string),
     Job_submitter j = Some s ->
     (j ∈ apply_filters missing_as_str selected_status selected_process
            selected_submitter df <->
      j ∈ df /\
      (selected_status = "All" \/ Job_status j = selected_status) /\
      (selected_process = "All" \/ Job_processID j = selected_process) /\
      (selected_submitter = "All" \/ s = selected_submitter))) /\
  (forall j : Job,
     j ∈ apply_filters missing_as_str selected_status selected_process "All" df <->
     j ∈ df /\
     (selected_status = "All" \/ Job_status j = selected_status) /\
     (selected_process = "All" \/ Job_processID j = selected_process)) /\
  apply_filters missing_as_str selected_status selected_process selected_submitter df
    `sublist_of` df /\
  apply_filters missing_as_str "All" "All" "All" df = df.
Proof.
  split_and!; [| | |done].
  - intros j s Hs. unfold apply_filters, submitter_str.
    repeat case_decide; rewrite ?list_elem_of_filter, ?Hs; naive_solver.
  - intros j. unfold apply_filters.
    rewrite (decide_True (P := "All" = "All")) by done.
    repeat case_decide; rewrite ?list_elem_of_filter; naive_solver.
  - unfold apply_filters.
    repeat case_decide;
      repeat (etrans; [apply sublist_filter|]); done.
Qed.

Lemma apply_filters_spec_witness :
  {| Job_jobID := "j1"; Job_updated := 0; Job_status := "successful";
     Job_processID := "p1"; Job_type := Some "process"; Job_submitter := Some "ann" |}
    ∈ apply_filters None "successful" "All" "ann" two_jobs.
Proof.
  apply (proj2 (proj1 (apply_filters_spec None "successful" "All" "ann" two_jobs)
                  {| Job_jobID := "j1"; Job_updated := 0; Job_status := "successful";
                     Job_processID := "p1"; Job_type := Some "process";
                     Job_submitter := Some "ann" |} "ann" eq_refl)).
  split_and!; [|by right|by left|by right].
  apply elem_of_cons. by left.
Defined.

(** Selecting the submitter "ann" keeps the one job submitted by "ann",
    under either reading of a missing submitter. *)
Example apply_filters_by_submitter :
  Job_jobID <$> apply_filters (Some "None") "All" "All" "ann" two_jobs = ["j1"] /\
  Job_jobID <$> apply_filters None "All" "All" "ann" two_jobs = ["j1"].
Proof. split; reflexivity. Qed.

End HomeExtra.
